(** * Dataset discovery and selection engine of [run.py]

    A shallow embedding of the data-directory branch of [main] in
    [src/run.py] (lines 164-271) together with the agent hand-over that
    follows it, and the properties of the engine stated in the
    specification.

    Modelling conventions.
    - Python [str] is [string]; only ASCII is interpreted ([lower],
      [strip]); other characters are left alone.
    - Python [int] is [Z]; Python [float] is an exact rational [Q]
      (rounding of binary64 is not modelled).
    - A candidate record, a Python [dict] with a fixed set of possible
      keys, is a Rocq record whose optional keys are [option] fields.
    - The lookup [colset] is a [gmap string string]; [set(files)] is a
      [gset string].
    - Python lists that are sorted in place live in a store of list
      objects addressed by location, so that aliasing is explicit.
    - The operating system, pandas and the agent are an explicit [World]
      of oracles; calls that may raise return [option] or a sum. *)

From Stdlib Require Import ZArith QArith Lqa Ascii String.
From stdpp Require Import base option list gmap sets strings sorting.

Local Open Scope Z_scope.

(** ** Strings: the [str] and [os.path] operations the engine uses *)

Module PyStr.

Local Open Scope char_scope.

(** [str.lower] on one ASCII character. *)
Definition lower_ascii (c : ascii) : ascii :=
  let n := N_of_ascii c in
  if ((65 <=? n) && (n <=? 90))%N then ascii_of_N (n + 32) else c.

(** [s.lower()] *)
Fixpoint lower (s : string) : string :=
  match s with
  | EmptyString => EmptyString
  | String c s' => String (lower_ascii c) (lower s')
  end.

(** [c.isspace()] for an ASCII character: TAB..CR, FS..US and space. *)
Definition isspace (c : ascii) : bool :=
  let n := N_of_ascii c in
  (((9 <=? n) && (n <=? 13)) || ((28 <=? n) && (n <=? 32)))%N.

Fixpoint lstrip (s : string) : string :=
  match s with
  | EmptyString => EmptyString
  | String c s' => if isspace c then lstrip s' else s
  end.

Definition rstrip (s : string) : string := String.rev (lstrip (String.rev s)).

(** [s.strip()] *)
Definition strip (s : string) : string := rstrip (lstrip s).

(** [s.split(sep)] for a one-character separator: [cur] is the piece
    being read. *)
Fixpoint split_go (sep : ascii) (cur : string) (s : string) : list string :=
  match s with
  | EmptyString => [String.rev cur]
  | String c s' =>
      if Ascii.eqb c sep then String.rev cur :: split_go sep EmptyString s'
      else split_go sep (String c cur) s'
  end.

Definition split (sep : ascii) (s : string) : list string :=
  split_go sep EmptyString s.

(** Truth value of a string: [bool(s)]. *)
Definition truthy (s : string) : bool :=
  match s with EmptyString => false | _ => true end.

Definition startswith_sep (s : string) : bool :=
  match s with String c _ => Ascii.eqb c "/" | _ => false end.

Fixpoint endswith_sep (s : string) : bool :=
  match s with
  | EmptyString => false
  | String c EmptyString => Ascii.eqb c "/"
  | String _ s' => endswith_sep s'
  end.

End PyStr.

Module OsPath.

Import PyStr.
Local Open Scope char_scope.

(** One step of the loop of [posixpath.join]. *)
Definition join2 (path b : string) : string :=
  if startswith_sep b then b
  else if negb (truthy path) || endswith_sep path then (path +:+ b)%string
  else (path +:+ "/" +:+ b)%string.

(** [os.path.join(a, *p)] *)
Definition join (a : string) (p : list string) : string :=
  foldl join2 a p.

(** The part of [s] after its last [sep]; [acc] holds, reversed, what
    was read since the last [sep]. *)
Fixpoint after_last (sep : ascii) (acc : string) (s : string) : string :=
  match s with
  | EmptyString => String.rev acc
  | String c s' =>
      if Ascii.eqb c sep then after_last sep EmptyString s'
      else after_last sep (String c acc) s'
  end.

(** [os.path.basename(p)], that is [p[p.rfind('/')+1:]]. *)
Definition basename (p : string) : string := after_last "/" EmptyString p.

Fixpoint skip_dots (s : string) : string :=
  match s with
  | String c s' => if Ascii.eqb c "." then skip_dots s' else s
  | EmptyString => EmptyString
  end.

(** The suffix of [s] that starts at its last dot, if it has a dot. *)
Fixpoint from_last_dot (s : string) : option string :=
  match s with
  | EmptyString => None
  | String c s' =>
      match from_last_dot s' with
      | Some e => Some e
      | None => if Ascii.eqb c "." then Some s else None
      end
  end.

(** [os.path.splitext(p)[1]]: the last dot must lie after the last
    separator, and leading dots of the file name do not start an
    extension. *)
Definition splitext_ext (p : string) : string :=
  default EmptyString (from_last_dot (skip_dots (basename p))).

End OsPath.

Local Open Scope string_scope.
Local Open Scope list_scope.

(** ** Data model *)

(** The four readers the Sampler dispatches to. *)
Inductive reader := ReadCsv | ReadParquet | ReadFeather | ReadStata.

(** What the engine observes of a pandas [DataFrame]: the number of rows
    and the column labels, which the four readers give as strings;
    [df.shape] is derived from them. *)
Record DataFrame := {
  df_nrows : N;
  df_columns : list string
}.

Definition df_shape (df : DataFrame) : Z * Z :=
  (Z.of_N (df_nrows df), Z.of_nat (length (df_columns df))).

(** The value of the key ["signals"]. *)
Record Signals := {
  has_unit : bool;
  has_time : bool;
  has_treat : bool;
  has_outcome : bool
}.

(** A candidate record: the [dict] returned by [infer_file].  The keys
    ["path"], ["ext"] and ["size"] are always there; the others are
    there or not, [None] standing for an absent key. *)
Module Candidate.
Record t := {
  path : string;
  ext : string;
  size : Z;
  nrows : option Z;
  ncols : option Z;
  columns : option (list string);
  score : option Q;
  signals : option Signals;
  error : option string
}.
End Candidate.

Abbreviation Candidate := Candidate.t.

(** The object handed to [json.dump]. *)
Record CatalogDoc := {
  doc_data_dir : string;
  doc_patterns : list string;
  doc_selected : string;
  doc_files : list Candidate
}.

(** How [agent.run()] ends. *)
Inductive agent_outcome := RunCompleted | RunInterrupted | RunFailed.

(** The environment of one invocation.  A call that raises is [None] or
    [inl msg], where [msg] is [str(e)] of the exception [e]. *)
Record World := {
  api_key_set : bool;
  (** the PDF stage (lines 111-162): the path of the saved summary, or
      [None] when it returns 1 *)
  paper_summary : option string;
  isdir : string -> bool;
  path_exists : string -> bool;
  abspath : string -> string;
  (** [glob.glob(pattern, recursive=True)] *)
  glob : string -> list string;
  (** [os.path.getsize]; [None]: it raises [OSError] *)
  getsize : string -> option Z;
  (** the pandas readers *)
  read_table : reader -> string -> string + DataFrame;
  (** [os.makedirs("logs", exist_ok=True)] before the catalogue is saved *)
  makedirs_ok : bool;
  (** [open] and [json.dump] of the catalogue go through *)
  write_ok : bool;
  run_agent : agent_outcome
}.

(** The command line, as far as the engine reads it. *)
Record Args := {
  data_path : option string;
  data_dir : option string;
  data_glob : option string;
  primary_file : option string;
  catalog_only : bool
}.

(** [bool(x)] for an optional string argument. *)
Definition given (o : option string) : bool :=
  match o with Some s => PyStr.truthy s | None => false end.

(** [x or 0] for an optional integer. *)
Definition or_zero (o : option Z) : Z :=
  match o with
  | Some n => if Z.eqb n 0 then 0 else n
  | None => 0
  end.

(** ** Heuristic scorer (lines 208-219) *)

Definition time_keys : list string := ["time"; "year"; "date"; "t"].
Definition unit_keys : list string :=
  ["unit"; "id"; "panelid"; "county"; "state"; "region"; "firm"].
Definition treat_keys : list string := ["treat"; "treated"; "policy"; "post"; "d"].
Definition outcome_keys : list string := ["y"; "outcome"; "dep"; "dependent"; "lhs"].

(** [{c.lower(): c for c in cols}]: later columns overwrite earlier ones. *)
Definition colset (cols : list string) : gmap string string :=
  foldl (fun m c => <[PyStr.lower c := c]> m) (∅ : gmap string string) cols.

(** [k in colset] *)
Definition in_dict (k : string) (m : gmap string string) : bool :=
  bool_decide (is_Some (m !! k)).

(** [any(k in colset for k in keys)] *)
Definition any_key (keys : list string) (m : gmap string string) : bool :=
  existsb (fun k => in_dict k m) keys.

Definition compute_signals (cols : list string) : Signals :=
  let cs := colset cols in
  {| has_time := any_key time_keys cs;
     has_unit := any_key unit_keys cs;
     has_treat := any_key treat_keys cs;
     has_outcome := any_key outcome_keys cs |}.

Definition compute_score (sg : Signals) (nrows ncols : option Z) : Q :=
  let score := 0%Q in
  let score := (score + (if has_unit sg && has_time sg then 3 else 0))%Q in
  let score := (score + (if has_treat sg then 2 else 0))%Q in
  let score := (score + (if has_outcome sg then 1 else 0))%Q in
  (score + ((5 # 10) * inject_Z (or_zero nrows) / 1000000
            + (1 # 10) * inject_Z (or_zero ncols)))%Q.

(** ** Format sniffer / sampler: [infer_file] (lines 184-225) *)

(** What a call leaves behind: a value, or an exception that nothing
    caught. *)
Inductive raising (A : Type) :=
  | Returned (a : A)
  | Uncaught (e : string).
Arguments Returned {A} a.
Arguments Uncaught {A} e.

Definition error_record (fp ext : string) (size : Z) (msg : string) : Candidate :=
  {| Candidate.path := fp; Candidate.ext := ext; Candidate.size := size;
     Candidate.nrows := None; Candidate.ncols := None;
     Candidate.columns := None; Candidate.score := None;
     Candidate.signals := None; Candidate.error := Some msg |}.

(** The extension dispatch of the [try] block: the reader to call, or
    [None] for the final [else]. *)
Definition reader_of (ext : string) : option reader :=
  if String.eqb ext ".csv" then Some ReadCsv
  else if String.eqb ext ".parquet" then Some ReadParquet
  else if String.eqb ext ".feather" then Some ReadFeather
  else if String.eqb ext ".dta" then Some ReadStata
  else None.

(** Lines 202-204 and 208-225: the record of a file that was read.  The
    signals and the score are taken from [cols], the sample from
    [cols[:20]]. *)
Definition scored_record (fp ext : string) (size : Z) (df : DataFrame) : Candidate :=
  let '(nrows, ncols) := df_shape df in
  let cols := df_columns df in
  let sample_cols := take 20 cols in
  let sg := compute_signals cols in
  let score := compute_score sg (Some nrows) (Some ncols) in
  {| Candidate.path := fp; Candidate.ext := ext; Candidate.size := size;
     Candidate.nrows := Some nrows; Candidate.ncols := Some ncols;
     Candidate.columns := Some sample_cols; Candidate.score := Some score;
     Candidate.signals := Some sg; Candidate.error := None |}.

Definition infer_file (w : World) (fp : string) : raising Candidate :=
  let ext := PyStr.lower (OsPath.splitext_ext fp) in
  match getsize w fp with
  | None => Uncaught "OSError"
  | Some size =>
      match reader_of ext with
      | None => Returned (error_record fp ext size "unsupported_ext")
      | Some rd =>
          match read_table w rd fp with
          | inl e => Returned (error_record fp ext size e)
          | inr df => Returned (scored_record fp ext size df)
          end
      end
  end.

(** [[f(x) for x in xs]] where [f] may raise: the first exception ends
    the comprehension. *)
Fixpoint map_raising {A B} (f : A -> raising B) (xs : list A) : raising (list B) :=
  match xs with
  | [] => Returned []
  | x :: xs' =>
      match f x with
      | Uncaught e => Uncaught e
      | Returned y =>
          match map_raising f xs' with
          | Uncaught e => Uncaught e
          | Returned ys => Returned (y :: ys)
          end
      end
  end.

(** ** File enumerator (lines 169-181) *)

(** The comprehension of line 174: the pieces of [args.data_glob]
    between commas, stripped, the empty ones left out. *)
Definition parse_patterns (data_glob : option string) : list string :=
  let pieces := PyStr.split "," (default EmptyString data_glob) in
  PyStr.strip <$> filter (fun p => PyStr.truthy (PyStr.strip p) = true) pieces.

(** The pattern handed to [glob.glob] for [pat]. *)
Definition search_pattern (dir pat : string) : string :=
  OsPath.join dir ["**"; pat].

(** The loop [for pat in patterns: files.extend(glob.glob(...))]. *)
Definition glob_all (w : World) (dir : string) (patterns : list string) : list string :=
  foldl (fun files pat => files ++ glob w (search_pattern dir pat)) [] patterns.

(** [sorted(set(files))]: strings compare by code point. *)
Definition sorted_set (files : list string) : list string :=
  merge_sort String.le (elements (list_to_set files : gset string)).

Definition discover (w : World) (dir : string) (patterns : list string) : list string :=
  sorted_set (glob_all w dir patterns).

(** ** Primary selector (lines 230-245) *)

(** The condition of the comprehension on line 233. *)
Definition matches (candidate : string) (c : Candidate) : bool :=
  String.eqb (Candidate.path c) candidate
  || String.eqb (OsPath.basename (Candidate.path c)) (OsPath.basename candidate).

(** [not c.get("error")]: the key is absent or its value is the empty
    string. *)
Definition no_error (c : Candidate) : bool :=
  match Candidate.error c with
  | Some e => negb (PyStr.truthy e)
  | None => true
  end.

(** The sort key of line 244. *)
Definition sort_key (c : Candidate) : Q * Z * Z :=
  (default 0%Q (Candidate.score c),
   or_zero (Candidate.nrows c),
   or_zero (Some (Candidate.size c))).

(** [a < b] on key tuples: the first component that differs decides. *)
Definition key_ltb (a b : Q * Z * Z) : bool :=
  let '(s1, n1, z1) := a in
  let '(s2, n2, z2) := b in
  match (s1 ?= s2)%Q with
  | Lt => true
  | Gt => false
  | Eq =>
      match (n1 ?= n2)%Z with
      | Lt => true
      | Gt => false
      | Eq => Z.ltb z1 z2
      end
  end.

(** [list.sort(key=sort_key, reverse=True)] is a stable sort with every
    comparison reversed.  An element is inserted in front of a sorted
    tail that came after it in the list: it passes the elements with a
    strictly greater key and stops at the first one without. *)
Fixpoint insert_reverse (x : Candidate) (l : list Candidate) : list Candidate :=
  match l with
  | [] => [x]
  | y :: l' =>
      if key_ltb (sort_key x) (sort_key y) then y :: insert_reverse x l'
      else x :: l
  end.

Definition sort_reverse (l : list Candidate) : list Candidate :=
  foldr insert_reverse [] l.

(** ** The machine [main] runs on *)

(** The lines the engine prints, by the statement that prints them. *)
Inductive message :=
  | DirectoryNotFound (dir : string)                      (* line 170 *)
  | NoFilesFound (dir : string) (patterns : list string)  (* line 180 *)
  | PrimaryFileNotFound (candidate : string)              (* line 235 *)
  | NoReadableFiles                                       (* line 242 *)
  | CatalogSaved                                          (* line 259 *)
  | CatalogOnlyExit                                       (* line 264 *)
  | DataFileNotFound (p : option string).                 (* line 269 *)

(** List objects by location, what was printed and saved, and what
    became of the agent. *)
Record Machine := {
  store : list (list Candidate);
  printed : list message;
  saved : option CatalogDoc;
  agent_built : option string;
  agent_ran : bool
}.

Definition boot : Machine :=
  {| store := []; printed := []; saved := None;
     agent_built := None; agent_ran := false |}.

(** How [main] ends early: a [return code], or an exception nothing
    caught. *)
Inductive stop :=
  | Return (code : Z)
  | Raised (e : string).

Definition M (A : Type) : Type := Machine -> Machine * (stop + A).

#[export] Instance M_ret : MRet M := fun A a m => (m, inr a).
#[export] Instance M_bind : MBind M := fun A B f c m =>
  match c m with
  | (m', inl s) => (m', inl s)
  | (m', inr a) => f a m'
  end.

Definition return_ {A} (code : Z) : M A := fun m => (m, inl (Return code)).
Definition raise_ {A} (e : string) : M A := fun m => (m, inl (Raised e)).

Definition call {A} (r : raising A) : M A :=
  match r with
  | Returned a => mret a
  | Uncaught e => raise_ e
  end.

Definition with_store (f : list (list Candidate) -> list (list Candidate))
    (m : Machine) : Machine :=
  {| store := f (store m); printed := printed m; saved := saved m;
     agent_built := agent_built m; agent_ran := agent_ran m |}.

(** A new list object. *)
Definition alloc (l : list Candidate) : M nat := fun m =>
  (with_store (fun st => st ++ [l]) m, inr (length (store m))).

Definition load (p : nat) : M (list Candidate) := fun m =>
  (m, inr (default [] (store m !! p))).

(** [l.sort(key=..., reverse=True)] on the object at [p]: in place. *)
Definition sort_at (p : nat) : M unit := fun m =>
  (with_store (fun st => <[p := sort_reverse (default [] (st !! p))]> st) m, inr tt).

Definition print (msg : message) : M unit := fun m =>
  ({| store := store m; printed := printed m ++ [msg]; saved := saved m;
      agent_built := agent_built m; agent_ran := agent_ran m |}, inr tt).

Definition save (doc : CatalogDoc) : M unit := fun m =>
  ({| store := store m; printed := printed m; saved := Some doc;
      agent_built := agent_built m; agent_ran := agent_ran m |}, inr tt).

Definition build_agent (data : string) : M unit := fun m =>
  ({| store := store m; printed := printed m; saved := saved m;
      agent_built := Some data; agent_ran := agent_ran m |}, inr tt).

Definition start_agent : M unit := fun m =>
  ({| store := store m; printed := printed m; saved := saved m;
      agent_built := agent_built m; agent_ran := true |}, inr tt).

(** [l[0]["path"]] *)
Definition first_path (l : list Candidate) : M string :=
  match l with
  | c :: _ => mret (Candidate.path c)
  | [] => raise_ "IndexError"
  end.

(** ** [main], from "Resolve dataset source" on *)

(** Lines 169-181: the patterns and the files found. *)
Definition enumerate (w : World) (dir : string) (data_glob : option string)
    : M (list string * list string) :=
  (if isdir w dir then mret tt
   else print (DirectoryNotFound dir);; return_ 1);;
  let patterns := parse_patterns data_glob in
  let files := discover w dir patterns in
  (if bool_decide (files = []) then print (NoFilesFound dir patterns);; return_ 1
   else mret tt);;
  mret (patterns, files).

(** Lines 230-245: both modes of the selector, on the list object
    [catalog]. *)
Definition choose_primary (args : Args) (catalog : nat) : M string :=
  if given (primary_file args) then
    let candidate := default EmptyString (primary_file args) in
    cat ← load catalog;
    matched ← alloc (filter (fun c => matches candidate c = true) cat);
    ms ← load matched;
    if bool_decide (ms = []) then
      print (PrimaryFileNotFound candidate);; return_ 1
    else first_path ms
  else
    cat ← load catalog;
    valid ← alloc (filter (fun c => no_error c = true) cat);
    vs ← load valid;
    if bool_decide (vs = []) then print NoReadableFiles;; return_ 1
    else
      sort_at valid;;
      vs' ← load valid;
      first_path vs'.

(** Lines 247-261: the write is inside [try: ... except Exception: pass],
    [os.makedirs] is not. *)
Definition save_catalog (w : World) (dir : string) (patterns : list string)
    (selected : string) (catalog : nat) : M unit :=
  (if makedirs_ok w then mret tt else raise_ "OSError");;
  files ← load catalog;
  if write_ok w then
    save {| doc_data_dir := abspath w dir; doc_patterns := patterns;
            doc_selected := selected; doc_files := files |};;
    print CatalogSaved
  else mret tt.

(** Lines 286-328; the banner and the agent's own output are not
    recorded. *)
Definition analyse (w : World) (selected : string) : M Z :=
  build_agent selected;;
  start_agent;;
  match run_agent w with
  | RunCompleted => mret 0
  | RunInterrupted => mret 1
  | RunFailed => mret 1
  end.

(** Lines 168-265: the data-directory branch. *)
Definition resolve_in_dir (w : World) (args : Args) (dir : string) : M string :=
  '(patterns, files) ← enumerate w dir (data_glob args);
  recs ← call (map_raising (infer_file w) files);
  catalog ← alloc recs;
  selected ← choose_primary args catalog;
  save_catalog w dir patterns selected catalog;;
  (if catalog_only args then print CatalogOnlyExit;; return_ 0 else mret tt);;
  mret selected.

Definition main (w : World) (args : Args) : M Z :=
  (if api_key_set w then mret tt else return_ 1);;
  (if bool_decide (paper_summary w = None) then return_ 1 else mret tt);;
  selected ←
    (if given (data_dir args) then
       resolve_in_dir w args (default EmptyString (data_dir args))
     else
       match data_path args with
       | Some p =>
           if PyStr.truthy p && path_exists w p then mret p
           else print (DataFileNotFound (data_path args));; return_ 1
       | None => print (DataFileNotFound None);; return_ 1
       end);
  analyse w selected.

(** One invocation: the final machine and how [main] ended. *)
Definition run (w : World) (args : Args) : Machine * stop :=
  match main w args boot with
  | (m, inl s) => (m, s)
  | (m, inr code) => (m, Return code)
  end.

(** ** Worlds and command lines for the examples *)

Module Lab.

Definition find_by {A} (k : string) (l : list (string * A)) : option A :=
  snd <$> List.find (fun p => String.eqb (fst p) k) l.

(** A world with the directory [data], given by what [glob] answers,
    the sizes of the files that can be stat'ed and what the readers
    make of each file. *)
Definition world (globs : list (string * list string))
    (sizes : list (string * Z))
    (tables : list (string * (string + DataFrame))) : World :=
  {| api_key_set := true;
     paper_summary := Some "logs/paper_summary_extracted.txt";
     isdir := fun d => String.eqb d "data";
     path_exists := fun p => bool_decide (is_Some (find_by p sizes));
     abspath := fun d => "/work/" +:+ d;
     glob := fun q => default [] (find_by q globs);
     getsize := fun fp => find_by fp sizes;
     read_table := fun _ fp => default (inl "No such file") (find_by fp tables);
     makedirs_ok := true;
     write_ok := true;
     run_agent := RunCompleted |}.

Definition in_dir (pats : string) (primary : option string) (only : bool) : Args :=
  {| data_path := None; data_dir := Some "data"; data_glob := Some pats;
     primary_file := primary; catalog_only := only |}.

Definition frame (n : N) (cols : list string) : string + DataFrame :=
  inr {| df_nrows := n; df_columns := cols |}.




(** [glob] lists a link whose target is gone: [os.path.getsize] fails
    on it. *)
Definition dangling : World :=
  world [("data/**/*.csv", ["data/ghost.csv"])] [] [].

(** A directory that holds a spreadsheet only. *)
Definition spreadsheet : World :=
  world [("data/**/*.xlsx", ["data/book.xlsx"])]
        [("data/book.xlsx", 2048)] [].

(** A file outside [data], found through a pattern that starts with
    the separator. *)
Definition outside : World :=
  world [("/etc/*.csv", ["/etc/passwd.csv"])]
        [("/etc/passwd.csv", 512)]
        [("/etc/passwd.csv", frame 3 ["name"; "uid"])].

(** Two readable files, the second in discovery order being the
    better one, and one that cannot be parsed. *)
Definition pair : World :=
  world [("data/**/*.csv", ["data/sub/b.csv"; "data/a.csv"; "data/c.csv"])]
        [("data/a.csv", 300); ("data/sub/b.csv", 70000); ("data/c.csv", 10)]
        [("data/a.csv", frame 50 ["id"; "notes"]);
         ("data/sub/b.csv", frame 200 ["id"; "year"; "treat"; "y"]);
         ("data/c.csv", inl "Error tokenizing data")].

(** The records of [pair], in discovery order, and a machine that
    holds a catalogue as its only list object. *)
Definition rec_a : Candidate :=
  scored_record "data/a.csv" ".csv" 300
    {| df_nrows := 50; df_columns := ["id"; "notes"] |}.
Definition rec_c : Candidate :=
  error_record "data/c.csv" ".csv" 10 "Error tokenizing data".
Definition rec_b : Candidate :=
  scored_record "data/sub/b.csv" ".csv" 70000
    {| df_nrows := 200; df_columns := ["id"; "year"; "treat"; "y"] |}.
Definition pair_catalog : list Candidate := [rec_a; rec_c; rec_b].

Definition holding (cat : list Candidate) : Machine :=
  with_store (fun _ => [cat]) boot.

End Lab.

(** The three ways [infer_file] returns a record. *)
Inductive sampled (w : World) (fp : string) : Candidate -> Prop :=
  | sampled_unsupported size :
      getsize w fp = Some size ->
      reader_of (PyStr.lower (OsPath.splitext_ext fp)) = None ->
      sampled w fp
        (error_record fp (PyStr.lower (OsPath.splitext_ext fp)) size "unsupported_ext")
  | sampled_failed size rd e :
      getsize w fp = Some size ->
      reader_of (PyStr.lower (OsPath.splitext_ext fp)) = Some rd ->
      read_table w rd fp = inl e ->
      sampled w fp (error_record fp (PyStr.lower (OsPath.splitext_ext fp)) size e)
  | sampled_read size rd df :
      getsize w fp = Some size ->
      reader_of (PyStr.lower (OsPath.splitext_ext fp)) = Some rd ->
      read_table w rd fp = inr df ->
      sampled w fp (scored_record fp (PyStr.lower (OsPath.splitext_ext fp)) size df).

(** ** Orders used to state the properties *)

(** [a] sorts strictly below [b]: its key is the smaller one. *)
Definition key_lt (a b : Candidate) : Prop :=
  key_ltb (sort_key a) (sort_key b) = true.

(** [a] may stand before [b] in a list in descending order. *)
Definition not_below (a b : Candidate) : Prop :=
  key_ltb (sort_key a) (sort_key b) = false.

(** The two keys compare equal. *)
Definition same_key (k : Q * Z * Z) (c : Candidate) : Prop :=
  key_ltb k (sort_key c) = false /\ key_ltb (sort_key c) k = false.

#[export] Instance same_key_dec (k : Q * Z * Z) (c : Candidate) :
  Decision (same_key k c).
Proof. unfold same_key. apply _. Defined.

(** ** Machines after a step *)

(** The machine after a line was printed. *)
Definition printing (msg : message) (m : Machine) : Machine :=
  {| store := store m; printed := printed m ++ [msg]; saved := saved m;
     agent_built := agent_built m; agent_ran := agent_ran m |}.

(** The machine after the catalogue was written. *)
Definition saving (doc : CatalogDoc) (m : Machine) : Machine :=
  {| store := store m; printed := printed m ++ [CatalogSaved]; saved := Some doc;
     agent_built := agent_built m; agent_ran := agent_ran m |}.

(** The machine after the agent was built on [data] and run. *)
Definition analysed (data : string) (m : Machine) : Machine :=
  {| store := store m; printed := printed m; saved := saved m;
     agent_built := Some data; agent_ran := true |}.

(** The return code of [main] after [agent.run()]. *)
Definition agent_code (w : World) : Z :=
  match run_agent w with
  | RunCompleted => 0
  | RunInterrupted => 1
  | RunFailed => 1
  end.

(** The world [w] with the outcome of the catalogue write set to [b]. *)
Definition with_write_ok (b : bool) (w : World) : World :=
  {| api_key_set := api_key_set w; paper_summary := paper_summary w;
     isdir := isdir w; path_exists := path_exists w; abspath := abspath w;
     glob := glob w; getsize := getsize w; read_table := read_table w;
     makedirs_ok := makedirs_ok w; write_ok := b; run_agent := run_agent w |}.

(** ** The paper stage (lines 111-162) *)











(** ** Views used to state further properties *)

(** The characters of a string. *)
Definition chars (s : string) : list ascii := list_ascii_of_string s.


(** Nothing but white space. *)
Definition blank (s : string) : Prop :=
  Forall (fun c => PyStr.isspace c = true) (chars s).

#[export] Instance blank_dec (s : string) : Decision (blank s).
Proof. unfold blank. apply _. Defined.


(** The file can be stat'ed and gives no usable table: its extension is
    not one of the four, or its reader raises with a message. *)
Definition unreadable (w : World) (fp : string) : Prop :=
  exists size,
    getsize w fp = Some size /\
    (reader_of (PyStr.lower (OsPath.splitext_ext fp)) = None
     \/ exists rd e,
          reader_of (PyStr.lower (OsPath.splitext_ext fp)) = Some rd /\
          read_table w rd fp = inl e /\ e <> EmptyString).

(** The command line with another [--data-path]. *)
Definition with_data_path (p : option string) (args : Args) : Args :=
  {| data_path := p; data_dir := data_dir args; data_glob := data_glob args;
     primary_file := primary_file args; catalog_only := catalog_only args |}.

(** The command line with other values for the three options that go
    with [--data-dir]. *)
Definition with_dir_options (g pf : option string) (only : bool) (args : Args) : Args :=
  {| data_path := data_path args; data_dir := data_dir args; data_glob := g;
     primary_file := pf; catalog_only := only |}.

(** ** More worlds for the examples *)

Module Cases.

(** A Stata file whose first chunk cannot be taken: the reader raises an
    exception whose message is empty. *)
Definition empty_chunk : World :=
  Lab.world [("data/**/*.dta", ["data/empty.dta"])]
            [("data/empty.dta", 1024)]
            [("data/empty.dta", inl EmptyString)].

Definition rec_empty : Candidate :=
  error_record "data/empty.dta" ".dta" 1024 EmptyString.

(** Two files of the same name in two directories. *)
Definition twins : World :=
  Lab.world [("data/**/*.csv", ["data/b/x.csv"; "data/a/x.csv"])]
            [("data/a/x.csv", 100); ("data/b/x.csv", 200)]
            [("data/a/x.csv", Lab.frame 10 ["id"]);
             ("data/b/x.csv", Lab.frame 20 ["id"; "year"])].

Definition twin_a : Candidate :=
  scored_record "data/a/x.csv" ".csv" 100 {| df_nrows := 10; df_columns := ["id"] |}.
Definition twin_b : Candidate :=
  scored_record "data/b/x.csv" ".csv" 200
    {| df_nrows := 20; df_columns := ["id"; "year"] |}.

(** A narrow panel with all four signals and a wide table with none. *)
Definition narrow : DataFrame :=
  {| df_nrows := 200; df_columns := ["id"; "year"; "treat"; "y"] |}.
Definition wide_plain : DataFrame :=
  {| df_nrows := 200; df_columns := replicate 66 "v" |}.

(** Two samples of the same columns with different numbers of rows. *)
Definition short_sample : DataFrame :=
  {| df_nrows := 50; df_columns := ["id"; "year"] |}.
Definition long_sample : DataFrame :=
  {| df_nrows := 200; df_columns := ["id"; "year"] |}.

End Cases.

Module Papers.


End Papers.

(** * Properties *)

(** ** Strings and paths on examples *)

Example lower_mixed : PyStr.lower "TrEaT_1" = "treat_1".
Proof. reflexivity. Qed.

Example strip_ws : PyStr.strip "  *.csv " = "*.csv".
Proof. reflexivity. Qed.

Example split_commas : PyStr.split "," "a,,b," = ["a"; EmptyString; "b"; EmptyString].
Proof. reflexivity. Qed.

Example join_relative : OsPath.join "data" ["**"; "*.csv"] = "data/**/*.csv".
Proof. reflexivity. Qed.

Example join_absolute : OsPath.join "data" ["**"; "/etc/*.csv"] = "/etc/*.csv".
Proof. reflexivity. Qed.

Example basename_nested : OsPath.basename "data/sub/a.csv" = "a.csv".
Proof. reflexivity. Qed.

Example splitext_upper : PyStr.lower (OsPath.splitext_ext "d.v1/Panel.CSV") = ".csv".
Proof. reflexivity. Qed.

Example splitext_hidden : OsPath.splitext_ext "data/.csv" = EmptyString.
Proof. reflexivity. Qed.

Example splitext_dir_dot : OsPath.splitext_ext "data.d/readme" = EmptyString.
Proof. reflexivity. Qed.

(** ** The scorer *)

Lemma colset_lookup_from (cols : list string) (m : gmap string string) (k : string) :
  is_Some (foldl (fun m c => <[PyStr.lower c := c]> m) m cols !! k)
  <-> is_Some (m !! k) \/ k ∈ PyStr.lower <$> cols.
Proof.
  revert m. induction cols as [|c cols IH]; intros m; simpl.
  - rewrite elem_of_nil. tauto.
  - rewrite IH, elem_of_cons, lookup_insert_is_Some.
    destruct (decide (PyStr.lower c = k)) as [Heq|Hne]; intuition congruence.
Qed.

Lemma colset_lookup (cols : list string) (k : string) :
  is_Some (colset cols !! k) <-> k ∈ PyStr.lower <$> cols.
Proof.
  unfold colset. rewrite colset_lookup_from, lookup_empty.
  split; [intros [[? ?]|?]; [discriminate|done] | auto].
Qed.

Lemma any_key_spec (keys cols : list string) :
  any_key keys (colset cols) = true
  <-> exists k, k ∈ keys /\ k ∈ PyStr.lower <$> cols.
Proof.
  unfold any_key, in_dict. rewrite existsb_exists. split.
  - intros (k & Hk & Hin). apply bool_decide_eq_true in Hin.
    exists k. split; [by apply list_elem_of_In | by apply colset_lookup].
  - intros (k & Hk & Hin). exists k.
    split; [by apply list_elem_of_In |].
    apply bool_decide_eq_true. by apply colset_lookup.
Qed.

Lemma or_zero_Some (n : Z) : or_zero (Some n) = n.
Proof. unfold or_zero. destruct (Z.eqb_spec n 0); congruence. Qed.

(** The score as one sum. *)
Lemma compute_score_eq (sg : Signals) (n k : Z) :
  (compute_score sg (Some n) (Some k) ==
    (if has_unit sg && has_time sg then 3 else 0)
    + (if has_treat sg then 2 else 0)
    + (if has_outcome sg then 1 else 0)
    + ((5 # 10) * inject_Z n / 1000000 + (1 # 10) * inject_Z k))%Q.
Proof. unfold compute_score. rewrite !or_zero_Some. ring. Qed.

Lemma div_million (x : Q) : (x / 1000000 == x * (1 # 1000000))%Q.
Proof. reflexivity. Qed.


(** ** The sampler *)

Lemma infer_file_sampled (w : World) (fp : string) (c : Candidate) :
  infer_file w fp = Returned c <-> sampled w fp c.
Proof.
  unfold infer_file. split.
  - destruct (getsize w fp) as [size|] eqn:Hsize; [|discriminate].
    destruct (reader_of _) as [rd|] eqn:Hrd.
    + destruct (read_table w rd fp) as [e|df] eqn:Hread;
        intros [= <-]; econstructor; eauto.
    + intros [= <-]. by constructor.
  - intros [size Hsize Hrd | size rd e Hsize Hrd Hread | size rd df Hsize Hrd Hread];
      rewrite Hsize, Hrd; try rewrite Hread; reflexivity.
Qed.

(** The sampler returns a record as soon as the size of the file can be
    read, whatever the readers do. *)
Lemma infer_file_returns (w : World) (fp : string) (size : Z) :
  getsize w fp = Some size -> exists c, infer_file w fp = Returned c.
Proof.
  intros Hsize. unfold infer_file. rewrite Hsize.
  destruct (reader_of _) as [rd|]; [|eauto].
  destruct (read_table w rd fp); eauto.
Qed.

(** An extension outside the four is reported without a read: the
    readers of the world play no part in the result. *)
Lemma infer_file_unsupported (w : World) (fp : string) (size : Z) :
  getsize w fp = Some size ->
  reader_of (PyStr.lower (OsPath.splitext_ext fp)) = None ->
  infer_file w fp =
    Returned (error_record fp (PyStr.lower (OsPath.splitext_ext fp)) size "unsupported_ext").
Proof. intros Hsize Hrd. unfold infer_file. by rewrite Hsize, Hrd. Qed.

Lemma reader_of_None (ext : string) :
  reader_of ext = None
  <-> ext <> ".csv" /\ ext <> ".parquet" /\ ext <> ".feather" /\ ext <> ".dta".
Proof.
  unfold reader_of.
  destruct (String.eqb_spec ext ".csv"); [intuition congruence|].
  destruct (String.eqb_spec ext ".parquet"); [intuition congruence|].
  destruct (String.eqb_spec ext ".feather"); [intuition congruence|].
  destruct (String.eqb_spec ext ".dta"); intuition congruence.
Qed.

Lemma scored_record_fields (fp ext : string) (size : Z) (df : DataFrame) :
  let sg := compute_signals (df_columns df) in
  let n := Z.of_N (df_nrows df) in
  let k := Z.of_nat (length (df_columns df)) in
  scored_record fp ext size df =
    {| Candidate.path := fp; Candidate.ext := ext; Candidate.size := size;
       Candidate.nrows := Some n; Candidate.ncols := Some k;
       Candidate.columns := Some (take 20 (df_columns df));
       Candidate.score := Some (compute_score sg (Some n) (Some k));
       Candidate.signals := Some sg; Candidate.error := None |}.
Proof. reflexivity. Qed.





(** C3, at a candidate whose size cannot be read.  [glob] lists
    [data/ghost.csv]; [os.path.getsize], which is called before the [try]
    block, raises on it; [infer_file] returns no record and the exception
    leaves [main]. *)
Theorem C3_sampler_raises_when_stat_fails :
  discover Lab.dangling "data" (parse_patterns (Some "*.csv")) = ["data/ghost.csv"] /\
  infer_file Lab.dangling "data/ghost.csv" = Uncaught "OSError" /\
  (run Lab.dangling (Lab.in_dir "*.csv" None false)).2 = Raised "OSError".
Proof. split; [|split]; vm_compute; reflexivity. Qed.

(** C4. Every record the sampler returns has the key [error] and none of
    [nrows], [ncols], [columns], [signals], [score], or it has these five
    and no [error]. *)
Theorem C4_error_xor_metadata (w : World) (fp : string) (c : Candidate) :
  infer_file w fp = Returned c ->
  (is_Some (Candidate.error c) /\
   Candidate.nrows c = None /\ Candidate.ncols c = None /\
   Candidate.columns c = None /\ Candidate.signals c = None /\
   Candidate.score c = None)
  \/
  (Candidate.error c = None /\
   is_Some (Candidate.nrows c) /\ is_Some (Candidate.ncols c) /\
   is_Some (Candidate.columns c) /\ is_Some (Candidate.signals c) /\
   is_Some (Candidate.score c)).
Proof.
  intros Hc%infer_file_sampled.
  destruct Hc as [size _ _ | size rd e _ _ _ | size rd df _ _ _].
  - left. simpl. eauto 10.
  - left. simpl. eauto 10.
  - right. rewrite scored_record_fields. simpl. eauto 10.
Qed.

Lemma C4_witness :
  let c := error_record "data/book.xlsx" ".xlsx" 2048 "unsupported_ext" in
  infer_file Lab.spreadsheet "data/book.xlsx" = Returned c /\
  ((is_Some (Candidate.error c) /\
    Candidate.nrows c = None /\ Candidate.ncols c = None /\
    Candidate.columns c = None /\ Candidate.signals c = None /\
    Candidate.score c = None)
   \/
   (Candidate.error c = None /\
    is_Some (Candidate.nrows c) /\ is_Some (Candidate.ncols c) /\
    is_Some (Candidate.columns c) /\ is_Some (Candidate.signals c) /\
    is_Some (Candidate.score c))).
Proof.
  intros c. split; [reflexivity|].
  apply (C4_error_xor_metadata Lab.spreadsheet "data/book.xlsx" c). reflexivity.
Defined.




(** ** The order on sort keys and the sort *)

Lemma key_ltb_spec (s1 s2 : Q) (n1 n2 z1 z2 : Z) :
  key_ltb (s1, n1, z1) (s2, n2, z2) = true
  <-> (s1 < s2)%Q \/ ((s1 == s2)%Q /\ (n1 < n2 \/ (n1 = n2 /\ z1 < z2))).
Proof.
  unfold key_ltb.
  destruct (Qcompare_spec s1 s2) as [Hs|Hs|Hs].
  - destruct (Z.compare_spec n1 n2) as [Hn|Hn|Hn].
    + rewrite Z.ltb_lt. split; [auto 6|].
      intros [Hlt|[_ [Hlt|[_ Hlt]]]]; [lra | lia | done].
    + split; [auto 6 | done].
    + split; [done|]. intros [Hlt|[_ [Hlt|[Heq _]]]]; [lra | lia | lia].
  - split; [auto | done].
  - split; [done|]. intros [Hlt|[Heq _]]; lra.
Qed.

Lemma key_ltb_false_spec (s1 s2 : Q) (n1 n2 z1 z2 : Z) :
  key_ltb (s1, n1, z1) (s2, n2, z2) = false
  <-> (s2 < s1)%Q \/ ((s1 == s2)%Q /\ (n2 < n1 \/ (n1 = n2 /\ z2 <= z1))).
Proof.
  rewrite <- not_true_iff_false, key_ltb_spec.
  destruct (Qcompare_spec s1 s2) as [Hs|Hs|Hs];
    destruct (Z.compare_spec n1 n2) as [Hn|Hn|Hn];
    destruct (Z.le_gt_cases z2 z1) as [Hz|Hz];
    split; intros H;
    try (intros [?|[? [?|[? ?]]]]);
    try (destruct H as [?|[? [?|[? ?]]]]);
    try lra; try lia; auto 6;
    try (exfalso; apply H; auto 6; fail).
Qed.

Ltac key_cases :=
  repeat match goal with
  | k : (Q * Z * Z)%type |- _ => destruct k as [[? ?] ?]
  | H : key_ltb _ _ = true |- _ => apply key_ltb_spec in H
  | H : key_ltb _ _ = false |- _ => apply key_ltb_false_spec in H
  | H : _ \/ _ |- _ => destruct H
  | H : _ /\ _ |- _ => destruct H
  end.

Lemma key_ltb_trans (a b c : Q * Z * Z) :
  key_ltb a b = true -> key_ltb b c = true -> key_ltb a c = true.
Proof.
  intros Hab Hbc. key_cases; apply key_ltb_spec;
    first [ left; lra
          | right; split; [lra|]; first [left; lia | right; split; lia] ].
Qed.

Lemma key_ltb_false_trans (a b c : Q * Z * Z) :
  key_ltb a b = false -> key_ltb b c = false -> key_ltb a c = false.
Proof.
  intros Hab Hbc. key_cases; apply key_ltb_false_spec;
    first [ left; lra
          | right; split; [lra|]; first [left; lia | right; split; lia] ].
Qed.

Lemma key_ltb_irrefl (a : Q * Z * Z) : key_ltb a a = false.
Proof.
  destruct a as [[s n] z]. apply key_ltb_false_spec.
  right. split; [lra|]. right. lia.
Qed.

Lemma key_ltb_asym (a b : Q * Z * Z) :
  key_ltb a b = true -> key_ltb b a = false.
Proof.
  intros Hab. key_cases; apply key_ltb_false_spec;
    first [ left; lra
          | right; split; [lra|]; first [left; lia | right; split; lia] ].
Qed.

(** A key equal to [k] is not strictly above a key equal to [k]. *)
Lemma same_key_not_lt (k : Q * Z * Z) (x y : Candidate) :
  same_key k x -> key_lt x y -> ~ same_key k y.
Proof.
  unfold same_key, key_lt. intros [Hkx Hxk] Hxy [Hky Hyk].
  assert (Hno : key_ltb (sort_key x) (sort_key y) = false)
    by (eapply key_ltb_false_trans; eauto).
  congruence.
Qed.

Lemma insert_reverse_Permutation (x : Candidate) (l : list Candidate) :
  insert_reverse x l ≡ₚ x :: l.
Proof.
  induction l as [|y l IH]; cbn [insert_reverse sort_reverse foldr]; [reflexivity|].
  destruct (key_ltb (sort_key x) (sort_key y)); [|reflexivity].
  rewrite IH. apply Permutation_swap.
Qed.

Lemma sort_reverse_cons (x : Candidate) (l : list Candidate) :
  sort_reverse (x :: l) = insert_reverse x (sort_reverse l).
Proof. reflexivity. Qed.

(** The sort rearranges the list. *)
Lemma sort_reverse_Permutation (l : list Candidate) : sort_reverse l ≡ₚ l.
Proof.
  induction l as [|x l IH]; [reflexivity|].
  rewrite sort_reverse_cons, insert_reverse_Permutation. by rewrite IH.
Qed.

Lemma insert_reverse_sorted (x : Candidate) (l : list Candidate) :
  StronglySorted not_below l -> StronglySorted not_below (insert_reverse x l).
Proof.
  induction 1 as [|y l Hl IH Hy]; cbn [insert_reverse sort_reverse foldr app].
  - repeat constructor.
  - destruct (key_ltb (sort_key x) (sort_key y)) eqn:Hxy.
    + constructor; [exact IH|].
      rewrite insert_reverse_Permutation. constructor; [|exact Hy].
      by apply key_ltb_asym.
    + constructor; [by constructor|].
      constructor; [exact Hxy|].
      eapply Forall_impl; [exact Hy|].
      intros z Hyz. unfold not_below in *. by eapply key_ltb_false_trans.
Qed.

(** The sorted list is in descending order of the key. *)
Lemma sort_reverse_sorted (l : list Candidate) :
  StronglySorted not_below (sort_reverse l).
Proof.
  induction l as [|x l IH]; [constructor|].
  rewrite sort_reverse_cons. by apply insert_reverse_sorted.
Qed.

Lemma insert_reverse_filter (k : Q * Z * Z) (x : Candidate) (l : list Candidate) :
  filter (same_key k) (insert_reverse x l) = filter (same_key k) (x :: l).
Proof.
  induction l as [|y l IH]; cbn [insert_reverse sort_reverse foldr]; [done|].
  destruct (key_ltb (sort_key x) (sort_key y)) eqn:Hxy; [|done].
  rewrite (filter_cons _ y), IH, !filter_cons.
  destruct (decide (same_key k x)) as [Hx|Hx]; [|done].
  destruct (decide (same_key k y)) as [Hy|Hy]; [|done].
  by destruct (same_key_not_lt k x y).
Qed.

(** The sort is stable: records whose keys compare equal keep the order
    they had. *)
Lemma sort_reverse_stable (k : Q * Z * Z) (l : list Candidate) :
  filter (same_key k) (sort_reverse l) = filter (same_key k) l.
Proof.
  induction l as [|x l IH]; [done|].
  rewrite sort_reverse_cons, insert_reverse_filter, !filter_cons, IH. done.
Qed.

(** The head of the sorted list is the first record, in the order of the
    list, whose key no other record exceeds. *)
Lemma sort_reverse_head (l : list Candidate) :
  l <> [] ->
  exists best rest before after,
    sort_reverse l = best :: rest /\
    l = before ++ best :: after /\
    Forall (fun c => key_lt c best) before /\
    Forall (fun c => not_below best c) after.
Proof.
  induction l as [|x l IH]; [done|]. intros _.
  destruct l as [|y l].
  { exists x, [], [], []. cbn [insert_reverse sort_reverse foldr app]. repeat split; constructor. }
  destruct IH as (best & rest & before & after & Hsort & Hl & Hbefore & Hafter);
    [done|].
  rewrite sort_reverse_cons, Hsort, Hl. cbn [insert_reverse].
  destruct (key_ltb (sort_key x) (sort_key best)) eqn:Hx.
  - exists best, (insert_reverse x rest), (x :: before), after.
    repeat split; [by constructor | done].
  - exists x, (best :: rest), [], (before ++ best :: after).
    repeat split; [constructor|].
    apply Forall_app. split; [|constructor].
    + eapply Forall_impl; [exact Hbefore|]. intros c Hc.
      unfold not_below, key_lt in *. apply key_ltb_asym in Hc.
      by eapply key_ltb_false_trans.
    + exact Hx.
    + eapply Forall_impl; [exact Hafter|]. intros c Hc.
      unfold not_below in *. by eapply key_ltb_false_trans.
Qed.

Lemma same_key_refl (c : Candidate) : same_key (sort_key c) c.
Proof. split; apply key_ltb_irrefl. Qed.

Lemma filter_same_key_head (x : Candidate) (l : list Candidate) :
  filter (same_key (sort_key x)) (x :: l)
  = x :: filter (same_key (sort_key x)) l.
Proof. rewrite filter_cons. by rewrite decide_True by apply same_key_refl. Qed.

(** A list in descending order is determined by the order in which it
    lists the records of each key: two stable sorts of one list agree.
    So [sort_reverse] is what any stable sort with reversed comparisons
    returns. *)
Lemma stable_sorted_unique (l1 l2 : list Candidate) :
  StronglySorted not_below l1 ->
  StronglySorted not_below l2 ->
  (forall k, filter (same_key k) l1 = filter (same_key k) l2) ->
  l1 = l2.
Proof.
  intros Hs1. revert l2.
  induction Hs1 as [|x t1 Ht1 IH Hx]; intros l2 Hs2 Hfilter.
  - destruct l2 as [|y t2]; [done|].
    specialize (Hfilter (sort_key y)). rewrite filter_same_key_head in Hfilter.
    discriminate.
  - destruct Hs2 as [|y t2 Ht2 Hy].
    { specialize (Hfilter (sort_key x)). rewrite filter_same_key_head in Hfilter.
      discriminate. }
    assert (Hxy : same_key (sort_key x) y).
    { split.
      - assert (Hin : y ∈ x :: t1).
        { eapply (list_elem_of_filter (same_key (sort_key y))).
          rewrite Hfilter, filter_same_key_head. apply list_elem_of_here. }
        apply elem_of_cons in Hin as [->|Hin]; [apply key_ltb_irrefl|].
        rewrite Forall_forall in Hx. apply (Hx y Hin).
      - assert (Hin : x ∈ y :: t2).
        { eapply (list_elem_of_filter (same_key (sort_key x))).
          rewrite <- Hfilter, filter_same_key_head. apply list_elem_of_here. }
        apply elem_of_cons in Hin as [->|Hin]; [apply key_ltb_irrefl|].
        rewrite Forall_forall in Hy. apply (Hy x Hin). }
    assert (Heq : x = y).
    { specialize (Hfilter (sort_key x)).
      rewrite filter_same_key_head, (filter_cons _ y) in Hfilter.
      rewrite decide_True in Hfilter by done. congruence. }
    subst y. f_equal. apply IH; [exact Ht2|].
    intros k. specialize (Hfilter k). rewrite !filter_cons in Hfilter.
    destruct (decide (same_key k x)); congruence.
Qed.

Lemma sort_reverse_unique (l l' : list Candidate) :
  StronglySorted not_below l' ->
  (forall k, filter (same_key k) l' = filter (same_key k) l) ->
  l' = sort_reverse l.
Proof.
  intros Hsorted Hstable.
  apply stable_sorted_unique; [done | apply sort_reverse_sorted |].
  intros k. by rewrite sort_reverse_stable.
Qed.

(** ** The selector on the machine *)

Lemma lookup_fresh {A} (st : list A) (x : A) : (st ++ [x]) !! length st = Some x.
Proof. by rewrite lookup_app_r, Nat.sub_diag. Qed.

Lemma lookup_old {A} (st : list A) (x y : A) (p : nat) :
  st !! p = Some y -> (st ++ [x]) !! p = Some y.
Proof. intros H. by apply lookup_app_l_Some. Qed.

Lemma insert_fresh {A} (st : list A) (x y : A) :
  <[length st := y]> (st ++ [x]) = st ++ [y].
Proof. by rewrite insert_app_r_alt, Nat.sub_diag. Qed.

(** The primitives of the machine under a bind. *)
Lemma bind_load {A} (p : nat) (l : list Candidate) (k : list Candidate -> M A)
    (m : Machine) :
  store m !! p = Some l -> (load p ≫= k) m = k l m.
Proof. intros H. unfold mbind, M_bind, load. cbv beta. by rewrite H. Qed.

Lemma bind_alloc {A} (l : list Candidate) (k : nat -> M A) (m : Machine) :
  (alloc l ≫= k) m = k (length (store m)) (with_store (fun st => st ++ [l]) m).
Proof. reflexivity. Qed.

Lemma bind_sort_at {A} (p : nat) (l : list Candidate) (k : unit -> M A)
    (m : Machine) :
  store m !! p = Some l ->
  (sort_at p ≫= k) m = k tt (with_store (fun st => <[p := sort_reverse l]> st) m).
Proof. intros H. unfold mbind, M_bind, sort_at, with_store. cbv beta. by rewrite H. Qed.

Lemma store_with_store (f : list (list Candidate) -> list (list Candidate))
    (m : Machine) :
  store (with_store f m) = f (store m).
Proof. reflexivity. Qed.

Lemma with_store_twice (f g : list (list Candidate) -> list (list Candidate))
    (m : Machine) :
  with_store g (with_store f m) = with_store (fun st => g (f st)) m.
Proof. reflexivity. Qed.

Lemma with_store_ext (f g : list (list Candidate) -> list (list Candidate))
    (m : Machine) :
  f (store m) = g (store m) -> with_store f m = with_store g m.
Proof. intros H. unfold with_store. by rewrite H. Qed.

(** Automatic mode, step by step: the filtered list is a new object, the
    sort changes that object and no other. *)
Lemma choose_primary_auto (args : Args) (m : Machine) (p : nat)
    (cat : list Candidate) :
  given (primary_file args) = false ->
  store m !! p = Some cat ->
  let valid := filter (fun c => no_error c = true) cat in
  choose_primary args p m =
    if bool_decide (valid = []) then
      ({| store := store m ++ [valid];
          printed := printed m ++ [NoReadableFiles];
          saved := saved m; agent_built := agent_built m;
          agent_ran := agent_ran m |}, inl (Return 1))
    else
      first_path (sort_reverse valid)
        (with_store (fun st => st ++ [sort_reverse valid]) m).
Proof.
  intros Hauto Hp valid. unfold choose_primary. rewrite Hauto.
  rewrite (bind_load p cat) by done. fold valid.
  rewrite bind_alloc.
  rewrite (bind_load _ valid) by (rewrite store_with_store; apply lookup_fresh).
  destruct (bool_decide (valid = [])); [reflexivity|].
  rewrite (bind_sort_at _ valid) by (rewrite store_with_store; apply lookup_fresh).
  rewrite with_store_twice.
  rewrite (with_store_ext _ (fun st => st ++ [sort_reverse valid]))
    by apply insert_fresh.
  rewrite (bind_load _ (sort_reverse valid))
    by (rewrite store_with_store; apply lookup_fresh).
  reflexivity.
Qed.

Lemma or_zero_default (o : option Z) : or_zero o = default 0 o.
Proof. destruct o as [n|]; [apply or_zero_Some | reflexivity]. Qed.

(** [key_lt] is the lexicographic order on (score or 0, nrows or 0,
    size or 0). *)
Lemma key_lt_spec (a b : Candidate) :
  key_lt a b <->
  let sa := default 0%Q (Candidate.score a) in
  let sb := default 0%Q (Candidate.score b) in
  let na := default 0 (Candidate.nrows a) in
  let nb := default 0 (Candidate.nrows b) in
  (sa < sb)%Q \/
  ((sa == sb)%Q /\
   (na < nb \/ (na = nb /\ Candidate.size a < Candidate.size b))).
Proof.
  unfold key_lt, sort_key.
  rewrite key_ltb_spec, !or_zero_Some, !or_zero_default. reflexivity.
Qed.

Lemma no_error_spec (c : Candidate) :
  no_error c = true <-> Candidate.error c = None \/ Candidate.error c = Some EmptyString.
Proof.
  unfold no_error. destruct (Candidate.error c) as [[|ch e]|]; simpl;
    intuition congruence.
Qed.

Lemma first_path_cons (c : Candidate) (l : list Candidate) (m : Machine) :
  first_path (c :: l) m = (m, inr (Candidate.path c)).
Proof. reflexivity. Qed.

(** C2. In automatic mode the selector keeps the records whose [error] is
    absent or empty; when none is left it prints the no-readable-files
    line and returns 1; otherwise it returns the path of the head of the
    kept records sorted in descending order of
    (score, nrows or 0, size or 0), and that head is the first record in
    discovery order among those with the greatest key. *)
Theorem C2_automatic_selection (args : Args) (m : Machine) (p : nat)
    (cat : list Candidate) :
  given (primary_file args) = false ->
  store m !! p = Some cat ->
  let valid := filter (fun c => no_error c = true) cat in
  let out := choose_primary args p m in
  (forall c, c ∈ valid <->
     c ∈ cat /\ (Candidate.error c = None \/ Candidate.error c = Some EmptyString)) /\
  (valid = [] ->
     out.2 = inl (Return 1) /\ printed out.1 = printed m ++ [NoReadableFiles]) /\
  (valid <> [] ->
     exists best rest before after,
       sort_reverse valid = best :: rest /\
       out.2 = inr (Candidate.path best) /\
       sort_reverse valid ≡ₚ valid /\
       StronglySorted not_below (sort_reverse valid) /\
       (forall k, filter (same_key k) (sort_reverse valid)
                  = filter (same_key k) valid) /\
       valid = before ++ best :: after /\
       Forall (fun c => key_lt c best) before /\
       Forall (fun c => not_below best c) after).
Proof.
  intros Hauto Hp valid out.
  assert (Hout := choose_primary_auto args m p cat Hauto Hp).
  fold valid in Hout. fold out in Hout.
  split; [|split].
  - intros c. unfold valid. rewrite list_elem_of_filter, no_error_spec. tauto.
  - intros Hnil. rewrite Hout, Hnil. done.
  - intros Hne.
    destruct (sort_reverse_head valid Hne)
      as (best & rest & before & after & Hsort & Hsplit & Hbefore & Hafter).
    exists best, rest, before, after.
    split; [exact Hsort|].
    split.
    { rewrite Hout, bool_decide_eq_false_2 by done.
      by rewrite Hsort, first_path_cons. }
    split; [apply sort_reverse_Permutation|].
    split; [apply sort_reverse_sorted|].
    split; [intros k; apply sort_reverse_stable|].
    done.
Qed.

Lemma C2_witness :
  let args := Lab.in_dir "*.csv" None false in
  let m := Lab.holding Lab.pair_catalog in
  given (primary_file args) = false /\
  store m !! 0%nat = Some Lab.pair_catalog /\
  (choose_primary args 0 m).2 = inr "data/sub/b.csv".
Proof.
  intros args m.
  assert (Hauto : given (primary_file args) = false) by reflexivity.
  assert (Hp : store m !! 0%nat = Some Lab.pair_catalog) by reflexivity.
  split; [exact Hauto|]. split; [exact Hp|].
  destruct (C2_automatic_selection args m 0 Lab.pair_catalog Hauto Hp)
    as (_ & _ & Hsel).
  destruct Hsel as (best & rest & before & after & Hsort & Hout & _).
  { vm_compute. discriminate. }
  rewrite Hout. vm_compute in Hsort.
  injection Hsort as Hbest _. rewrite <- Hbest. reflexivity.
Defined.

(** ** Explicit override *)

Lemma filter_first {A} (P : A -> Prop) `{!forall x, Decision (P x)}
    (l : list A) (x : A) (rest : list A) :
  filter P l = x :: rest ->
  exists before after,
    l = before ++ x :: after /\ P x /\ Forall (fun y => ~ P y) before.
Proof.
  induction l as [|y l IH]; [done|].
  rewrite filter_cons. destruct (decide (P y)) as [Hy|Hy].
  - intros [= -> _]. exists [], l. repeat split; [done | constructor].
  - intros (before & after & -> & Hx & Hb)%IH.
    exists (y :: before), after. repeat split; [done | by constructor].
Qed.

Lemma matches_spec (candidate : string) (c : Candidate) :
  matches candidate c = true <->
  Candidate.path c = candidate
  \/ OsPath.basename (Candidate.path c) = OsPath.basename candidate.
Proof.
  unfold matches. rewrite orb_true_iff, !String.eqb_eq. reflexivity.
Qed.

Lemma choose_primary_explicit (args : Args) (m : Machine) (p : nat)
    (cat : list Candidate) (candidate : string) :
  primary_file args = Some candidate ->
  PyStr.truthy candidate = true ->
  store m !! p = Some cat ->
  let matched := filter (fun c => matches candidate c = true) cat in
  choose_primary args p m =
    if bool_decide (matched = []) then
      ({| store := store m ++ [matched];
          printed := printed m ++ [PrimaryFileNotFound candidate];
          saved := saved m; agent_built := agent_built m;
          agent_ran := agent_ran m |}, inl (Return 1))
    else
      first_path matched (with_store (fun st => st ++ [matched]) m).
Proof.
  intros Hpf Hcand Hp matched. unfold choose_primary, given.
  rewrite Hpf, Hcand. cbn [default from_option id].
  rewrite (bind_load p cat) by done. fold matched.
  rewrite bind_alloc.
  rewrite (bind_load _ matched) by (rewrite store_with_store; apply lookup_fresh).
  destruct (bool_decide (matched = [])); reflexivity.
Qed.

Lemma filter_matches_paths (candidate : string) (cat cat' : list Candidate) :
  Candidate.path <$> cat' = Candidate.path <$> cat ->
  Candidate.path <$> filter (fun c => matches candidate c = true) cat'
  = Candidate.path <$> filter (fun c => matches candidate c = true) cat.
Proof.
  revert cat'. induction cat as [|c cat IH]; intros [|c' cat']; try done.
  intros [= Hc Hrest]. rewrite !filter_cons.
  assert (Hm : matches candidate c' = matches candidate c)
    by (unfold matches; by rewrite Hc).
  rewrite Hm. destruct (decide (matches candidate c = true)).
  - rewrite !fmap_cons. by rewrite Hc, (IH cat').
  - by apply IH.
Qed.

(** C6. With a primary file given, a record matches when its path equals
    the given string or its basename equals the basename of the given
    string.  When no record matches the selector prints the
    primary-file-not-found line and returns 1.  When some record matches
    it returns the path of the first that does, and the answer depends on
    the paths of the catalogue alone, not on scores or errors. *)
Theorem C6_explicit_override (args : Args) (m : Machine) (p : nat)
    (cat : list Candidate) (candidate : string) :
  primary_file args = Some candidate ->
  PyStr.truthy candidate = true ->
  store m !! p = Some cat ->
  let out := choose_primary args p m in
  (forall c, matches candidate c = true <->
     Candidate.path c = candidate
     \/ OsPath.basename (Candidate.path c) = OsPath.basename candidate) /\
  ((forall c, c ∈ cat -> matches candidate c = false) ->
     out.2 = inl (Return 1) /\
     printed out.1 = printed m ++ [PrimaryFileNotFound candidate]) /\
  (forall c, c ∈ cat -> matches candidate c = true ->
     exists first before after,
       cat = before ++ first :: after /\
       matches candidate first = true /\
       Forall (fun c' => matches candidate c' = false) before /\
       out.2 = inr (Candidate.path first)) /\
  (forall (m' : Machine) (p' : nat) (cat' : list Candidate),
     store m' !! p' = Some cat' ->
     Candidate.path <$> cat' = Candidate.path <$> cat ->
     (choose_primary args p' m').2 = out.2).
Proof.
  intros Hpf Hcand Hp out.
  assert (Hout := choose_primary_explicit args m p cat candidate Hpf Hcand Hp).
  cbv zeta in Hout. fold out in Hout.
  set (matched := filter (fun c => matches candidate c = true) cat) in *.
  split; [intros c; apply matches_spec|]. split; [|split].
  - intros Hnone.
    assert (Hnil : matched = []).
    { apply elem_of_nil_inv. intros c [Hm Hc]%list_elem_of_filter.
      rewrite (Hnone c Hc) in Hm. discriminate. }
    rewrite Hout, Hnil. done.
  - intros c Hc Hm.
    destruct matched as [|first rest] eqn:Hmatched.
    { assert (Hin : c ∈ matched) by (by apply list_elem_of_filter).
      rewrite Hmatched in Hin. by apply elem_of_nil in Hin. }
    destruct (filter_first _ cat first rest Hmatched)
      as (before & after & Hsplit & Hfirst & Hbefore).
    exists first, before, after. repeat split; [done..| |].
    + eapply Forall_impl; [exact Hbefore|]. intros c' Hc'.
      by apply not_true_is_false.
    + rewrite Hout. by rewrite bool_decide_eq_false_2.
  - intros m' p' cat' Hp' Hpaths.
    rewrite (choose_primary_explicit args m' p' cat' candidate Hpf Hcand Hp').
    rewrite Hout. cbv zeta.
    assert (Hf := filter_matches_paths candidate cat cat' Hpaths).
    fold matched in Hf.
    destruct (filter (fun c => matches candidate c = true) cat') as [|c1 l1],
      matched as [|c2 l2]; try discriminate Hf; [done|].
    injection Hf as Hc _. rewrite !bool_decide_eq_false_2 by done.
    rewrite !first_path_cons. simpl. by rewrite Hc.
Qed.

Lemma C6_witness :
  let args := Lab.in_dir "*.csv" (Some "c.csv") false in
  let m := Lab.holding Lab.pair_catalog in
  primary_file args = Some "c.csv" /\
  PyStr.truthy "c.csv" = true /\
  store m !! 0%nat = Some Lab.pair_catalog /\
  Lab.rec_c ∈ Lab.pair_catalog /\
  Candidate.error Lab.rec_c = Some "Error tokenizing data" /\
  (choose_primary args 0 m).2 = inr "data/c.csv".
Proof.
  intros args m.
  assert (Hpf : primary_file args = Some "c.csv") by reflexivity.
  assert (Hp : store m !! 0%nat = Some Lab.pair_catalog) by reflexivity.
  assert (Hin : Lab.rec_c ∈ Lab.pair_catalog).
  { unfold Lab.pair_catalog. rewrite !elem_of_cons. auto. }
  repeat (split; [done|]).
  destruct (C6_explicit_override args m 0 Lab.pair_catalog "c.csv" Hpf eq_refl Hp)
    as (_ & _ & Hsome & _).
  destruct (Hsome Lab.rec_c Hin eq_refl)
    as (first & before & after & Hsplit & Hfirst & Hbefore & Hout).
  rewrite Hout. unfold Lab.pair_catalog in Hsplit.
  destruct before as [|b1 [|b2 [|b3 before]]]; simpl in Hsplit.
  - injection Hsplit as <- _. vm_compute in Hfirst. discriminate.
  - injection Hsplit as _ <- _. reflexivity.
  - injection Hsplit as _ <- _ _.
    apply Forall_cons_1 in Hbefore as [_ Hb]. apply Forall_cons_1 in Hb as [Hb _].
    vm_compute in Hb. discriminate.
  - injection Hsplit as _ _ _ Hnil. destruct before; discriminate.
Defined.

(** ** The enumerator *)

Lemma append_cons (c : ascii) (a b : string) :
  String c a +:+ b = String c (a +:+ b).
Proof. reflexivity. Qed.

Lemma append_assoc (a b c : string) : (a +:+ b) +:+ c = a +:+ b +:+ c.
Proof.
  induction a as [|ch a IH]; [reflexivity|].
  rewrite !append_cons. by rewrite IH.
Qed.

Lemma append_nil_r (a : string) : a +:+ EmptyString = a.
Proof.
  induction a as [|ch a IH]; [reflexivity|]. rewrite append_cons. by rewrite IH.
Qed.

Lemma truthy_append_stars (a : string) : PyStr.truthy (a +:+ "**") = true.
Proof. destruct a; reflexivity. Qed.

Lemma endswith_sep_append_stars (a : string) :
  PyStr.endswith_sep (a +:+ "**") = false.
Proof.
  induction a as [|ch a IH]; [reflexivity|].
  rewrite append_cons. cbn [PyStr.endswith_sep].
  destruct (a +:+ "**") eqn:Ha; [by destruct a | exact IH].
Qed.

(** A pattern that does not start with the separator is searched below
    the directory: the pattern handed to [glob] is the directory, a
    separator unless the directory is empty or ends with one, and
    [**/pat]. *)
Lemma search_pattern_relative (dir pat : string) :
  PyStr.startswith_sep pat = false ->
  search_pattern dir pat =
    dir +:+ (if negb (PyStr.truthy dir) || PyStr.endswith_sep dir then EmptyString else "/")
        +:+ "**/" +:+ pat.
Proof.
  intros Hpat. unfold search_pattern, OsPath.join. cbn [foldl].
  unfold OsPath.join2 at 2. cbn [PyStr.startswith_sep Ascii.eqb Bool.eqb].
  unfold OsPath.join2. rewrite Hpat.
  destruct (negb (PyStr.truthy dir) || PyStr.endswith_sep dir).
  - rewrite truthy_append_stars, endswith_sep_append_stars. simpl.
    by rewrite !append_assoc.
  - rewrite <- (append_assoc dir "/" "**").
    rewrite truthy_append_stars, endswith_sep_append_stars. simpl.
    by rewrite !append_assoc.
Qed.

(** A pattern that starts with the separator replaces the directory. *)
Lemma search_pattern_absolute (dir pat : string) :
  PyStr.startswith_sep pat = true -> search_pattern dir pat = pat.
Proof.
  intros Hpat. unfold search_pattern, OsPath.join. cbn [foldl].
  unfold OsPath.join2 at 1. by rewrite Hpat.
Qed.

Lemma glob_all_from (w : World) (dir : string) (patterns acc : list string)
    (p : string) :
  p ∈ foldl (fun files pat => files ++ glob w (search_pattern dir pat)) acc patterns
  <-> p ∈ acc \/ exists pat, pat ∈ patterns /\ p ∈ glob w (search_pattern dir pat).
Proof.
  revert acc. induction patterns as [|pat patterns IH]; intros acc; cbn [foldl].
  - split; [auto | intros [?|(pat & Hin & _)]; [done | by apply elem_of_nil in Hin]].
  - rewrite IH, elem_of_app. split.
    + intros [[?|?]|(pat' & Hin & Hp)]; [auto | right; exists pat | right; exists pat'];
        rewrite elem_of_cons; auto.
    + intros [?|(pat' & Hin & Hp)]; [auto|].
      apply elem_of_cons in Hin as [->|Hin]; [auto | right; eauto].
Qed.

Lemma elem_of_glob_all (w : World) (dir : string) (patterns : list string)
    (p : string) :
  p ∈ glob_all w dir patterns
  <-> exists pat, pat ∈ patterns /\ p ∈ glob w (search_pattern dir pat).
Proof.
  unfold glob_all. rewrite glob_all_from.
  split; [intros [Hnil|?]; [by apply elem_of_nil in Hnil | done] | auto].
Qed.

Lemma sorted_set_Permutation (files : list string) :
  sorted_set files ≡ₚ elements (list_to_set files : gset string).
Proof. apply merge_sort_Permutation. Qed.

Lemma elem_of_sorted_set (files : list string) (p : string) :
  p ∈ sorted_set files <-> p ∈ files.
Proof.
  rewrite sorted_set_Permutation, elem_of_elements, elem_of_list_to_set. done.
Qed.

Lemma sorted_set_NoDup (files : list string) : NoDup (sorted_set files).
Proof. rewrite sorted_set_Permutation. apply NoDup_elements. Qed.

Lemma sorted_set_sorted (files : list string) :
  StronglySorted String.le (sorted_set files).
Proof. apply StronglySorted_merge_sort; apply _. Qed.


Lemma enumerate_run (w : World) (dir : string) (data_glob : option string)
    (m : Machine) :
  let patterns := parse_patterns data_glob in
  let files := discover w dir patterns in
  enumerate w dir data_glob m =
    if isdir w dir then
      if bool_decide (files = []) then
        ({| store := store m; printed := printed m ++ [NoFilesFound dir patterns];
            saved := saved m; agent_built := agent_built m;
            agent_ran := agent_ran m |}, inl (Return 1))
      else (m, inr (patterns, files))
    else
      ({| store := store m; printed := printed m ++ [DirectoryNotFound dir];
          saved := saved m; agent_built := agent_built m;
          agent_ran := agent_ran m |}, inl (Return 1)).
Proof.
  intros patterns files. unfold enumerate. fold patterns. fold files.
  destruct (isdir w dir); [|reflexivity].
  destruct (bool_decide (files = [])); reflexivity.
Qed.

(** X2. The enumerator as the code has it.  It prints the
    directory-not-found line and returns 1 when the root is not a
    directory.  Otherwise the files are those that [glob] finds for
    [os.path.join(root, "**", pat)], [pat] ranging over the patterns:
    without duplicates and in ascending order of the path; when there is
    none it prints the no-files-found line and returns 1.  The search for
    a pattern that does not start with the separator is rooted at the
    directory; a pattern that starts with it is searched as it stands. *)
Theorem enumerator_union_sorted (w : World) (dir : string) (data_glob : option string)
    (m : Machine) :
  let patterns := parse_patterns data_glob in
  let found := fun p =>
    exists pat, pat ∈ patterns /\ p ∈ glob w (search_pattern dir pat) in
  let out := enumerate w dir data_glob m in
  (forall pat, PyStr.startswith_sep pat = false ->
     search_pattern dir pat =
       dir +:+ (if negb (PyStr.truthy dir) || PyStr.endswith_sep dir
                then EmptyString else "/") +:+ "**/" +:+ pat) /\
  (forall pat, PyStr.startswith_sep pat = true -> search_pattern dir pat = pat) /\
  (isdir w dir = false ->
     out.2 = inl (Return 1) /\
     printed out.1 = printed m ++ [DirectoryNotFound dir]) /\
  (isdir w dir = true -> (forall p, ~ found p) ->
     out.2 = inl (Return 1) /\
     printed out.1 = printed m ++ [NoFilesFound dir patterns]) /\
  (isdir w dir = true -> (exists p, found p) ->
     exists files,
       out = (m, inr (patterns, files)) /\
       StronglySorted String.le files /\
       NoDup files /\
       forall p, p ∈ files <-> found p).
Proof.
  intros patterns found out.
  assert (Hout := enumerate_run w dir data_glob m).
  cbv zeta in Hout. fold patterns in Hout. fold out in Hout.
  assert (Hfound : forall p, p ∈ discover w dir patterns <-> found p).
  { intros p. unfold discover. rewrite elem_of_sorted_set. apply elem_of_glob_all. }
  split; [intros pat; apply search_pattern_relative|].
  split; [intros pat; apply search_pattern_absolute|].
  split; [|split].
  - intros Hdir. rewrite Hout, Hdir. done.
  - intros Hdir Hnone. rewrite Hout, Hdir.
    rewrite bool_decide_eq_true_2; [done|].
    apply elem_of_nil_inv. intros p Hp. by apply (Hnone p), Hfound.
  - intros Hdir [p Hp]. exists (discover w dir patterns).
    split; [|split; [apply sorted_set_sorted | split; [apply sorted_set_NoDup | done]]].
    rewrite Hout, Hdir. rewrite bool_decide_eq_false_2; [done|].
    intros Hnil. apply Hfound in Hp. rewrite Hnil in Hp. by apply elem_of_nil in Hp.
Qed.

(** C5, at a pattern that starts with the separator.  With the root
    [data] and the pattern [/etc/*.csv], [os.path.join] drops the root,
    [glob] is asked for [/etc/*.csv], and the enumerator returns
    [/etc/passwd.csv], which no search rooted at [data] finds. *)
Theorem C5_absolute_pattern_leaves_root :
  search_pattern "data" "/etc/*.csv" = "/etc/*.csv" /\
  enumerate Lab.outside "data" (Some "/etc/*.csv") boot
    = (boot, inr (["/etc/*.csv"], ["/etc/passwd.csv"])) /\
  ~ (exists pat, pat ∈ parse_patterns (Some "/etc/*.csv") /\
       "/etc/passwd.csv" ∈ glob Lab.outside ("data" +:+ "/**/" +:+ pat)).
Proof.
  split; [reflexivity|].
  split; [vm_compute; reflexivity|].
  intros (pat & Hpat & Hin).
  change (parse_patterns (Some "/etc/*.csv")) with ["/etc/*.csv"] in Hpat.
  apply list_elem_of_singleton in Hpat. subst pat.
  vm_compute in Hin. by apply elem_of_nil in Hin.
Qed.

(** ** [main] *)

(** The data-directory branch, one call after the other. *)
Lemma resolve_in_dir_run (w : World) (args : Args) (dir : string) (m : Machine) :
  resolve_in_dir w args dir m =
    match enumerate w dir (data_glob args) m with
    | (m1, inl s) => (m1, inl s)
    | (m1, inr (patterns, files)) =>
        match map_raising (infer_file w) files with
        | Uncaught e => (m1, inl (Raised e))
        | Returned recs =>
            let catalog := length (store m1) in
            match choose_primary args catalog
                    (with_store (fun st => st ++ [recs]) m1) with
            | (m3, inl s) => (m3, inl s)
            | (m3, inr selected) =>
                match save_catalog w dir patterns selected catalog m3 with
                | (m4, inl s) => (m4, inl s)
                | (m4, inr _) =>
                    if catalog_only args
                    then (printing CatalogOnlyExit m4, inl (Return 0))
                    else (m4, inr selected)
                end
            end
        end
    end.
Proof.
  unfold resolve_in_dir. unfold mbind at 1, M_bind at 1.
  destruct (enumerate w dir (data_glob args) m) as [m1 [s|[patterns files]]];
    [reflexivity|].
  unfold mbind at 1, M_bind at 1, call.
  destruct (map_raising (infer_file w) files) as [recs|e]; [|reflexivity].
  cbn [mret M_ret]. rewrite bind_alloc. cbv zeta.
  unfold mbind at 1, M_bind at 1.
  destruct (choose_primary _ _ _) as [m3 [s|selected]]; [reflexivity|].
  unfold mbind at 1, M_bind at 1.
  destruct (save_catalog _ _ _ _ _ _) as [m4 [s|[]]]; [reflexivity|].
  destruct (catalog_only args); reflexivity.
Qed.

Lemma save_catalog_run (w : World) (dir : string) (patterns : list string)
    (selected : string) (p : nat) (files : list Candidate) (m : Machine) :
  store m !! p = Some files ->
  save_catalog w dir patterns selected p m =
    if makedirs_ok w then
      if write_ok w then
        ({| store := store m; printed := printed m ++ [CatalogSaved];
            saved := Some {| doc_data_dir := abspath w dir;
                             doc_patterns := patterns;
                             doc_selected := selected;
                             doc_files := files |};
            agent_built := agent_built m; agent_ran := agent_ran m |}, inr tt)
      else (m, inr tt)
    else (m, inl (Raised "OSError")).
Proof.
  intros Hp. unfold save_catalog.
  destruct (makedirs_ok w); [|reflexivity].
  unfold mbind at 1, M_bind at 1. cbn [mret M_ret].
  rewrite (bind_load p files) by done.
  destruct (write_ok w); reflexivity.
Qed.

(** The selector leaves the list objects that were there alone, saves
    nothing and does not touch the agent. *)
Lemma choose_primary_frame (args : Args) (m : Machine) (p : nat)
    (cat : list Candidate) :
  store m !! p = Some cat ->
  let out := choose_primary args p m in
  store out.1 !! p = Some cat /\
  saved out.1 = saved m /\
  agent_built out.1 = agent_built m /\
  agent_ran out.1 = agent_ran m.
Proof.
  intros Hp out. unfold out. clear out.
  destruct (given (primary_file args)) eqn:Hmode.
  - unfold given in Hmode.
    destruct (primary_file args) as [candidate|] eqn:Hpf; [|discriminate].
    rewrite (choose_primary_explicit args m p cat candidate Hpf Hmode Hp).
    cbv zeta. destruct (bool_decide _).
    + cbn [fst store saved agent_built agent_ran].
      split; [by apply lookup_old | done].
    + destruct (filter _ cat) as [|c l];
        (split; [by apply lookup_old | done]).
  - rewrite (choose_primary_auto args m p cat Hmode Hp).
    cbv zeta. destruct (bool_decide _).
    + cbn [fst store saved agent_built agent_ran].
      split; [by apply lookup_old | done].
    + destruct (sort_reverse _) as [|c l];
        (split; [by apply lookup_old | done]).
Qed.

Lemma enumerate_inr (w : World) (dir : string) (data_glob : option string)
    (m m1 : Machine) (patterns files : list string) :
  enumerate w dir data_glob m = (m1, inr (patterns, files)) ->
  m1 = m /\ patterns = parse_patterns data_glob /\
  files = discover w dir patterns /\ isdir w dir = true /\ files <> [].
Proof.
  rewrite enumerate_run. cbv zeta.
  destruct (isdir w dir); [|discriminate].
  destruct (bool_decide _) eqn:Hnil; [discriminate|].
  intros [= <- <- <-]. apply bool_decide_eq_false in Hnil. done.
Qed.

Lemma enumerate_inl (w : World) (dir : string) (data_glob : option string)
    (m m1 : Machine) (s : stop) :
  enumerate w dir data_glob m = (m1, inl s) ->
  s = Return 1 /\ store m1 = store m /\ saved m1 = saved m /\
  agent_built m1 = agent_built m /\ agent_ran m1 = agent_ran m.
Proof.
  rewrite enumerate_run. cbv zeta.
  destruct (isdir w dir); [destruct (bool_decide _)|]; intros [= <- <-]; done.
Qed.

Lemma analyse_run (w : World) (selected : string) (m : Machine) :
  analyse w selected m = (analysed selected m, inr (agent_code w)).
Proof. unfold analyse, agent_code. destruct (run_agent w); reflexivity. Qed.

(** What the selector answers when it fails. *)
Lemma choose_primary_inl (args : Args) (m m3 : Machine) (p : nat)
    (cat : list Candidate) (s : stop) :
  store m !! p = Some cat ->
  choose_primary args p m = (m3, inl s) -> s = Return 1.
Proof.
  intros Hp. destruct (given (primary_file args)) eqn:Hmode.
  - unfold given in Hmode.
    destruct (primary_file args) as [candidate|] eqn:Hpf; [|discriminate].
    rewrite (choose_primary_explicit args m p cat candidate Hpf Hmode Hp).
    cbv zeta. destruct (bool_decide _) eqn:Hnil; [by intros [= _ <-]|].
    apply bool_decide_eq_false in Hnil.
    destruct (filter _ cat) as [|c l]; [done | discriminate].
  - rewrite (choose_primary_auto args m p cat Hmode Hp).
    cbv zeta. destruct (bool_decide _) eqn:Hnil; [by intros [= _ <-]|].
    apply bool_decide_eq_false in Hnil.
    assert (Hne : sort_reverse (filter (fun c => no_error c = true) cat) <> []).
    { intros Hs. apply Hnil. apply Permutation_nil_r.
      rewrite <- Hs. symmetry. apply sort_reverse_Permutation. }
    destruct (sort_reverse _) as [|c l]; [done | discriminate].
Qed.

(** The data-directory branch once every candidate was sampled. *)
Lemma resolve_sampled (w : World) (args : Args) (dir : string) (m m3 : Machine)
    (recs : list Candidate) (r : stop + string) :
  let patterns := parse_patterns (data_glob args) in
  let files := discover w dir patterns in
  isdir w dir = true ->
  files <> [] ->
  map_raising (infer_file w) files = Returned recs ->
  choose_primary args (length (store m)) (with_store (fun st => st ++ [recs]) m)
    = (m3, r) ->
  resolve_in_dir w args dir m =
    match r with
    | inl s => (m3, inl s)
    | inr selected =>
        if makedirs_ok w then
          let doc := {| doc_data_dir := abspath w dir; doc_patterns := patterns;
                        doc_selected := selected; doc_files := recs |} in
          let m4 := if write_ok w then saving doc m3 else m3 in
          if catalog_only args then (printing CatalogOnlyExit m4, inl (Return 0))
          else (m4, inr selected)
        else (m3, inl (Raised "OSError"))
    end.
Proof.
  intros patterns files Hdir Hfiles Hrecs Hsel.
  rewrite resolve_in_dir_run, enumerate_run. cbv zeta.
  fold patterns. fold files. rewrite Hdir.
  rewrite bool_decide_eq_false_2 by done.
  rewrite Hrecs, Hsel. destruct r as [s|selected]; [reflexivity|].
  assert (Hcat : store m3 !! length (store m) = Some recs).
  { pose proof (choose_primary_frame args
      (with_store (fun st => st ++ [recs]) m) (length (store m)) recs) as Hframe.
    rewrite Hsel in Hframe. apply Hframe.
    rewrite store_with_store. apply lookup_fresh. }
  rewrite (save_catalog_run w dir patterns selected _ recs m3 Hcat).
  destruct (makedirs_ok w); [|reflexivity].
  destruct (write_ok w); reflexivity.
Qed.

(** [main] when the key is set, the paper was summarised and a data
    directory is given. *)
Lemma main_in_dir (w : World) (args : Args) (dir : string) :
  api_key_set w = true ->
  paper_summary w <> None ->
  data_dir args = Some dir ->
  PyStr.truthy dir = true ->
  main w args boot =
    match resolve_in_dir w args dir boot with
    | (m, inl s) => (m, inl s)
    | (m, inr selected) => (analysed selected m, inr (agent_code w))
    end.
Proof.
  intros Hkey Hpaper Hdir Htruthy. unfold main, given.
  rewrite Hkey, Hdir, Htruthy. rewrite bool_decide_eq_false_2 by done.
  cbn [default from_option id].
  unfold mbind at 1, M_bind at 1. cbn [mret M_ret].
  unfold mbind at 1, M_bind at 1. cbn [mret M_ret].
  unfold mbind at 1, M_bind at 1.
  destruct (resolve_in_dir w args dir boot) as [m [s|selected]]; [reflexivity|].
  apply analyse_run.
Qed.

Lemma run_in_dir (w : World) (args : Args) (dir : string) :
  api_key_set w = true ->
  paper_summary w <> None ->
  data_dir args = Some dir ->
  PyStr.truthy dir = true ->
  run w args =
    match resolve_in_dir w args dir boot with
    | (m, inl s) => (m, s)
    | (m, inr selected) => (analysed selected m, Return (agent_code w))
    end.
Proof.
  intros Hkey Hpaper Hdir Htruthy. unfold run.
  rewrite (main_in_dir w args dir Hkey Hpaper Hdir Htruthy).
  destruct (resolve_in_dir w args dir boot) as [m [s|selected]]; reflexivity.
Qed.

(** Outside the data-directory branch nothing is saved, and the write
    plays no part. *)
Lemma run_elsewhere (w : World) (args : Args) :
  api_key_set w = false \/ paper_summary w = None \/ given (data_dir args) = false ->
  saved (run w args).1 = None /\
  forall b, run (with_write_ok b w) args = run w args.
Proof.
  intros Hcase. unfold run, main.
  cbn [api_key_set paper_summary with_write_ok].
  destruct (api_key_set w); [|split; reflexivity].
  destruct (paper_summary w) as [summary|]; [|split; reflexivity].
  destruct Hcase as [?|[?|Hdir]]; [discriminate..|]. rewrite Hdir.
  rewrite bool_decide_eq_false_2 by done.
  destruct (data_path args) as [p|]; [|split; reflexivity].
  cbn [path_exists with_write_ok].
  destruct (PyStr.truthy p && path_exists w p); [|split; reflexivity].
  unfold mbind, M_bind. cbn [mret M_ret]. rewrite analyse_run.
  split; [reflexivity|]. intros b. by rewrite analyse_run.
Qed.

Lemma given_Some (o : option string) :
  given o = true -> exists s, o = Some s /\ PyStr.truthy s = true.
Proof. destruct o as [s|]; [eauto | discriminate]. Qed.

(** Every record carries the path it was sampled from. *)
Lemma map_infer_file_paths (w : World) (files : list string)
    (recs : list Candidate) :
  map_raising (infer_file w) files = Returned recs ->
  Candidate.path <$> recs = files.
Proof.
  revert recs. induction files as [|fp files IH]; intros recs; cbn [map_raising].
  - by intros [= <-].
  - destruct (infer_file w fp) as [c|e] eqn:Hc; [|discriminate].
    destruct (map_raising (infer_file w) files) as [cs|e]; [|discriminate].
    intros [= <-]. rewrite fmap_cons, (IH cs) by done.
    apply infer_file_sampled in Hc. by destruct Hc.
Qed.

(** The write flag reaches [save_catalog] only. *)
Lemma resolve_in_dir_write (b : bool) (w : World) (args : Args) (dir : string)
    (m : Machine) :
  resolve_in_dir (with_write_ok b w) args dir m =
    match enumerate w dir (data_glob args) m with
    | (m1, inl s) => (m1, inl s)
    | (m1, inr (patterns, files)) =>
        match map_raising (infer_file w) files with
        | Uncaught e => (m1, inl (Raised e))
        | Returned recs =>
            let catalog := length (store m1) in
            match choose_primary args catalog
                    (with_store (fun st => st ++ [recs]) m1) with
            | (m3, inl s) => (m3, inl s)
            | (m3, inr selected) =>
                match save_catalog (with_write_ok b w) dir patterns selected
                        catalog m3 with
                | (m4, inl s) => (m4, inl s)
                | (m4, inr _) =>
                    if catalog_only args
                    then (printing CatalogOnlyExit m4, inl (Return 0))
                    else (m4, inr selected)
                end
            end
        end
    end.
Proof. rewrite resolve_in_dir_run. reflexivity. Qed.

(** The two ways the data-directory branch goes: it stops before the
    catalogue is written, with a code other than 0 or an exception, or
    every candidate was sampled, a primary file was selected and the
    [logs] directory is there. *)
Lemma resolve_in_dir_cases (w : World) (args : Args) (dir : string) (m : Machine) :
  let patterns := parse_patterns (data_glob args) in
  let files := discover w dir patterns in
  (exists m1 s,
     (forall b, resolve_in_dir (with_write_ok b w) args dir m = (m1, inl s)) /\
     resolve_in_dir w args dir m = (m1, inl s) /\
     s <> Return 0 /\
     saved m1 = saved m /\ agent_built m1 = agent_built m /\
     agent_ran m1 = agent_ran m)
  \/
  (exists recs m3 selected,
     isdir w dir = true /\ files <> [] /\
     map_raising (infer_file w) files = Returned recs /\
     choose_primary args (length (store m))
       (with_store (fun st => st ++ [recs]) m) = (m3, inr selected) /\
     makedirs_ok w = true /\
     store m3 !! length (store m) = Some recs /\
     saved m3 = saved m /\ agent_built m3 = agent_built m /\
     agent_ran m3 = agent_ran m /\
     let doc := {| doc_data_dir := abspath w dir; doc_patterns := patterns;
                   doc_selected := selected; doc_files := recs |} in
     let after (written : bool) :=
       let m4 := if written then saving doc m3 else m3 in
       if catalog_only args then (printing CatalogOnlyExit m4, inl (Return 0))
       else (m4, inr selected) in
     (forall b, resolve_in_dir (with_write_ok b w) args dir m = after b) /\
     resolve_in_dir w args dir m = after (write_ok w)).
Proof.
  intros patterns files.
  assert (Hw := resolve_in_dir_run w args dir m).
  assert (Hb := fun b => resolve_in_dir_write b w args dir m).
  destruct (enumerate w dir (data_glob args) m) as [m1 [s|[ps fs]]] eqn:Henum.
  { apply enumerate_inl in Henum as (-> & _ & ? & ? & ?).
    left. exists m1, (Return 1). repeat split; done. }
  apply enumerate_inr in Henum as (-> & -> & -> & Hdir & Hfiles).
  fold patterns in Hw, Hb, Hfiles |- *. fold files in Hw, Hb, Hfiles |- *.
  destruct (map_raising (infer_file w) files) as [recs|e] eqn:Hrecs.
  2: { left. exists m, (Raised e). repeat split; done. }
  cbv zeta in Hw, Hb.
  assert (Hfresh : store (with_store (fun st => st ++ [recs]) m)
                     !! length (store m) = Some recs).
  { rewrite store_with_store. apply lookup_fresh. }
  assert (Hframe := choose_primary_frame args _ _ recs Hfresh).
  assert (Hfail := fun m3 s => choose_primary_inl args _ m3 _ recs s Hfresh).
  destruct (choose_primary args (length (store m))
              (with_store (fun st => st ++ [recs]) m)) as [m3 [s|selected]] eqn:Hsel.
  { cbn [fst] in Hframe. destruct Hframe as (_ & ? & ? & ?).
    rewrite (Hfail m3 s eq_refl) in *.
    left. exists m3, (Return 1). repeat split; done. }
  cbn [fst] in Hframe. destruct Hframe as (Hcat & Hsaved & Hbuilt & Hran).
  rewrite (save_catalog_run w dir patterns selected _ recs m3 Hcat) in Hw.
  assert (Hb' := fun b => eq_trans (Hb b)
    (f_equal (fun r => match r with
                       | (m4, inl s) => (m4, inl s)
                       | (m4, inr _) =>
                           if catalog_only args
                           then (printing CatalogOnlyExit m4, inl (Return 0))
                           else (m4, inr selected)
                       end)
       (save_catalog_run (with_write_ok b w) dir patterns selected _ recs m3 Hcat))).
  cbn [makedirs_ok write_ok abspath with_write_ok] in Hb'.
  destruct (makedirs_ok w) eqn:Hmk.
  - right. exists recs, m3, selected.
    repeat (split; [done|]). cbv zeta. split.
    + intros b. rewrite Hb'. by destruct b.
    + rewrite Hw. by destruct (write_ok w).
  - left. exists m3, (Raised "OSError"). repeat split; done.
Qed.

Lemma first_path_machine (l : list Candidate) (m m' : Machine) (r : stop + string) :
  first_path l m = (m', r) -> m' = m.
Proof. destruct l; by intros [= <- _]. Qed.

(** C7 as stated fails when no primary file can be selected: a
    directory that holds a spreadsheet only, searched with [*.xlsx] and
    with the catalogue-only flag set, ends in [return 1] after the
    no-readable-files line, and no catalogue is written. *)
Lemma C7_counterexample :
  let args := Lab.in_dir "*.xlsx" None true in
  catalog_only args = true /\
  discover Lab.spreadsheet "data" (parse_patterns (data_glob args))
    = ["data/book.xlsx"] /\
  (run Lab.spreadsheet args).2 = Return 1 /\
  printed (run Lab.spreadsheet args).1 = [NoReadableFiles] /\
  saved (run Lab.spreadsheet args).1 = None.
Proof. repeat split; vm_compute; reflexivity. Qed.

(** C7, as the code has it.  With the catalogue-only flag set in a run
    that reaches the data-directory branch the agent is neither built nor
    run.  When every candidate was sampled, a primary file was selected
    and the [logs] directory is there, [main] returns 0 and the catalogue
    is saved unless its write fails.  When the selector fails, [main]
    returns 1 and no catalogue is saved. *)
Theorem C7_catalog_only (w : World) (args : Args) (dir : string) :
  api_key_set w = true ->
  paper_summary w <> None ->
  data_dir args = Some dir ->
  PyStr.truthy dir = true ->
  catalog_only args = true ->
  let patterns := parse_patterns (data_glob args) in
  let files := discover w dir patterns in
  let out := run w args in
  agent_built out.1 = None /\
  agent_ran out.1 = false /\
  (forall recs m3 selected,
     isdir w dir = true -> files <> [] ->
     map_raising (infer_file w) files = Returned recs ->
     choose_primary args 0 (with_store (fun st => st ++ [recs]) boot)
       = (m3, inr selected) ->
     makedirs_ok w = true ->
     out.2 = Return 0 /\
     saved out.1 =
       if write_ok w
       then Some {| doc_data_dir := abspath w dir; doc_patterns := patterns;
                    doc_selected := selected; doc_files := recs |}
       else None) /\
  (forall recs m3 s,
     isdir w dir = true -> files <> [] ->
     map_raising (infer_file w) files = Returned recs ->
     choose_primary args 0 (with_store (fun st => st ++ [recs]) boot)
       = (m3, inl s) ->
     out.2 = Return 1 /\ saved out.1 = None).
Proof.
  intros Hkey Hpaper Hdir Htruthy Honly patterns files out.
  assert (Hrun := run_in_dir w args dir Hkey Hpaper Hdir Htruthy).
  fold out in Hrun.
  assert (Hframe : forall recs,
            saved (choose_primary args 0
                     (with_store (fun st => st ++ [recs]) boot)).1 = None).
  { intros recs.
    by destruct (choose_primary_frame args
                   (with_store (fun st => st ++ [recs]) boot) 0 recs eq_refl)
      as (_ & Hsaved & _). }
  split; [|split; [|split]].
  - destruct (resolve_in_dir_cases w args dir boot)
      as [(m1 & s & _ & Hres & _ & _ & Hbuilt & _)
         |(recs & m3 & selected & _ & _ & _ & _ & _ & _ & _ & Hbuilt & _ & _ & Hres)].
    + rewrite Hrun, Hres. exact Hbuilt.
    + rewrite Hrun, Hres, Honly. by destruct (write_ok w).
  - destruct (resolve_in_dir_cases w args dir boot)
      as [(m1 & s & _ & Hres & _ & _ & _ & Hran)
         |(recs & m3 & selected & _ & _ & _ & _ & _ & _ & _ & _ & Hran & _ & Hres)].
    + rewrite Hrun, Hres. exact Hran.
    + rewrite Hrun, Hres, Honly. by destruct (write_ok w).
  - intros recs m3 selected Hisdir Hfiles Hrecs Hsel Hmk.
    assert (Hsaved := Hframe recs). rewrite Hsel in Hsaved. cbn [fst] in Hsaved.
    rewrite Hrun.
    rewrite (resolve_sampled w args dir boot m3 recs (inr selected)
               Hisdir Hfiles Hrecs Hsel).
    rewrite Hmk, Honly. cbv zeta. fold patterns.
    destruct (write_ok w); split; done.
  - intros recs m3 s Hisdir Hfiles Hrecs Hsel.
    assert (Hsaved := Hframe recs). rewrite Hsel in Hsaved. cbn [fst] in Hsaved.
    rewrite Hrun.
    rewrite (resolve_sampled w args dir boot m3 recs (inl s)
               Hisdir Hfiles Hrecs Hsel).
    split; [|exact Hsaved]. cbn [snd]. f_equal.
    apply (choose_primary_inl args
             (with_store (fun st => st ++ [recs]) boot) m3 0 recs s eq_refl Hsel).
Qed.

Lemma C7_witness :
  let args := Lab.in_dir "*.csv" None true in
  api_key_set Lab.pair = true /\
  paper_summary Lab.pair <> None /\
  data_dir args = Some "data" /\
  PyStr.truthy "data" = true /\
  catalog_only args = true /\
  agent_built (run Lab.pair args).1 = None /\
  agent_ran (run Lab.pair args).1 = false /\
  (run Lab.pair args).2 = Return 0 /\
  saved (run Lab.pair args).1 =
    Some {| doc_data_dir := "/work/data"; doc_patterns := ["*.csv"];
            doc_selected := "data/sub/b.csv"; doc_files := Lab.pair_catalog |}.
Proof.
  intros args.
  assert (Hpaper : paper_summary Lab.pair <> None) by discriminate.
  do 5 (split; [done|]).
  destruct (C7_catalog_only Lab.pair args "data" eq_refl Hpaper eq_refl eq_refl eq_refl)
    as (Hbuilt & Hran & Hdone & _).
  split; [exact Hbuilt|]. split; [exact Hran|].
  apply (Hdone Lab.pair_catalog
           (with_store (fun st => st ++ [[Lab.rec_b; Lab.rec_a]])
              (Lab.holding Lab.pair_catalog))
           "data/sub/b.csv").
  - reflexivity.
  - vm_compute. discriminate.
  - vm_compute. reflexivity.
  - vm_compute. reflexivity.
  - reflexivity.
Defined.

Lemma in_dir_or_elsewhere (w : World) (args : Args) :
  (api_key_set w = false \/ paper_summary w = None \/ given (data_dir args) = false)
  \/
  (api_key_set w = true /\ paper_summary w <> None /\
   exists dir, data_dir args = Some dir /\ PyStr.truthy dir = true).
Proof.
  destruct (api_key_set w); [|auto].
  destruct (paper_summary w); [|auto].
  destruct (given (data_dir args)) eqn:Hdir; [|auto].
  right. split; [done|]. split; [done|]. by apply given_Some.
Qed.

(** C8. Whether the write of the catalogue fails or goes through, [main]
    ends the same way: the same return code or exception, the same list
    objects, the same agent built and run.  When the write fails nothing
    is saved, and the output lacks the catalogue-saved line and nothing
    else. *)
Theorem C8_write_failure_ignored (w : World) (args : Args) :
  let ok := run (with_write_ok true w) args in
  let ko := run (with_write_ok false w) args in
  ko.2 = ok.2 /\
  saved ko.1 = None /\
  store ko.1 = store ok.1 /\
  agent_built ko.1 = agent_built ok.1 /\
  agent_ran ko.1 = agent_ran ok.1 /\
  (printed ko.1 = printed ok.1
   \/ exists pre post,
        printed ok.1 = pre ++ CatalogSaved :: post /\ printed ko.1 = pre ++ post).
Proof.
  intros ok ko. unfold ok, ko. clear ok ko.
  destruct (in_dir_or_elsewhere w args)
    as [Helse|(Hkey & Hpaper & dir & Hdir & Htruthy)].
  - destruct (run_elsewhere w args Helse) as [Hsaved Hsame].
    rewrite !Hsame. auto 10.
  - rewrite (run_in_dir (with_write_ok true w) args dir Hkey Hpaper Hdir Htruthy).
    rewrite (run_in_dir (with_write_ok false w) args dir Hkey Hpaper Hdir Htruthy).
    destruct (resolve_in_dir_cases w args dir boot)
      as [(m1 & s & Hres & _ & _ & Hsaved & _)
         |(recs & m3 & selected & _ & _ & _ & _ & _ & _ & Hsaved & _ & _ & Hres & _)].
    + rewrite !Hres. auto 10.
    + cbv zeta in Hres. rewrite !Hres.
      destruct (catalog_only args); cbn.
      * repeat (split; [done|]). right.
        exists (printed m3), [CatalogOnlyExit].
        split; [|done]. by rewrite <- app_assoc.
      * repeat (split; [done|]). right.
        exists (printed m3), []. split; [done|]. by rewrite app_nil_r.
Qed.

(** C9. The catalogue that is saved lists the records of the files in
    discovery order: the list [[infer_file(fp) for fp in files]] over the
    sorted, duplicate-free enumeration.  The list object of the catalogue
    still holds them in that order at the end of the run, and in
    automatic mode the sorted list is another object. *)
Theorem C9_catalog_in_discovery_order (w : World) (args : Args) (doc : CatalogDoc) :
  saved (run w args).1 = Some doc ->
  exists dir,
    data_dir args = Some dir /\
    let files := discover w dir (parse_patterns (data_glob args)) in
    map_raising (infer_file w) files = Returned (doc_files doc) /\
    Candidate.path <$> doc_files doc = files /\
    StronglySorted String.le files /\
    NoDup files /\
    store (run w args).1 !! 0%nat = Some (doc_files doc) /\
    (given (primary_file args) = false ->
     store (run w args).1 !! 1%nat
       = Some (sort_reverse (filter (fun c => no_error c = true) (doc_files doc)))).
Proof.
  intros Hdoc.
  destruct (in_dir_or_elsewhere w args)
    as [Helse|(Hkey & Hpaper & dir & Hdir & Htruthy)].
  { destruct (run_elsewhere w args Helse) as [Hsaved _]. congruence. }
  exists dir. split; [exact Hdir|]. cbv zeta.
  rewrite (run_in_dir w args dir Hkey Hpaper Hdir Htruthy) in Hdoc |- *.
  destruct (resolve_in_dir_cases w args dir boot)
    as [(m1 & s & _ & Hres & _ & Hsaved & _)
       |(recs & m3 & selected & _ & _ & Hrecs & Hsel & _ & Hcat & Hsaved & _ & _ & _ & Hres)].
  { rewrite Hres in Hdoc. cbn [fst] in Hdoc. rewrite Hsaved in Hdoc. discriminate. }
  cbv zeta in Hres. rewrite Hres in Hdoc |- *.
  change (saved boot) with (@None CatalogDoc) in Hsaved.
  assert (Hfiles : doc_files doc = recs /\ write_ok w = true).
  { destruct (write_ok w), (catalog_only args); cbn in Hdoc;
      rewrite ?Hsaved in Hdoc; try discriminate Hdoc;
      injection Hdoc as <-; done. }
  destruct Hfiles as [-> Hwrite]. rewrite Hwrite.
  split; [exact Hrecs|].
  split; [by apply (map_infer_file_paths w)|].
  split; [apply sorted_set_sorted|].
  split; [apply sorted_set_NoDup|].
  split.
  { destruct (catalog_only args); exact Hcat. }
  intros Hauto.
  change (length (store boot)) with 0%nat in Hsel.
  rewrite (choose_primary_auto args
             (with_store (fun st => st ++ [recs]) boot) 0 recs Hauto eq_refl)
    in Hsel.
  cbv zeta in Hsel.
  destruct (bool_decide _); [discriminate|].
  apply first_path_machine in Hsel. subst m3.
  destruct (catalog_only args); reflexivity.
Qed.

Lemma C9_witness :
  let args := Lab.in_dir "*.csv" None false in
  let doc := {| doc_data_dir := "/work/data"; doc_patterns := ["*.csv"];
                doc_selected := "data/sub/b.csv";
                doc_files := Lab.pair_catalog |} in
  saved (run Lab.pair args).1 = Some doc /\
  Candidate.path <$> doc_files doc = ["data/a.csv"; "data/c.csv"; "data/sub/b.csv"] /\
  store (run Lab.pair args).1 !! 1%nat = Some [Lab.rec_b; Lab.rec_a].
Proof.
  intros args doc.
  assert (Hdoc : saved (run Lab.pair args).1 = Some doc) by reflexivity.
  split; [exact Hdoc|].
  destruct (C9_catalog_in_discovery_order Lab.pair args doc Hdoc)
    as (dir & Hdir & _ & Hpaths & _ & _ & _ & Hsorted).
  injection Hdir as <-.
  split.
  - rewrite Hpaths. vm_compute. reflexivity.
  - rewrite (Hsorted eq_refl). vm_compute. reflexivity.
Defined.

(** * Further properties *)

(** ** Characters of the strings the engine builds *)

Lemma chars_inj (s t : string) : chars s = chars t -> s = t.
Proof.
  intros H. rewrite <- (string_of_list_ascii_of_string s),
    <- (string_of_list_ascii_of_string t). unfold chars in H. by rewrite H.
Qed.


Lemma chars_rev_app (s acc : string) :
  chars (String.rev_app s acc) = reverse (chars s) ++ chars acc.
Proof.
  revert acc. induction s as [|c s IH]; intros acc; [reflexivity|].
  cbn [String.rev_app]. rewrite IH. cbn [chars list_ascii_of_string].
  rewrite reverse_cons, <- app_assoc. reflexivity.
Qed.

Lemma chars_rev (s : string) : chars (String.rev s) = reverse (chars s).
Proof. unfold String.rev. rewrite chars_rev_app. apply app_nil_r. Qed.


Lemma truthy_chars (s : string) : PyStr.truthy s = true <-> chars s <> [].
Proof. destruct s; simpl; split; congruence. Qed.











(** ** The pattern list *)










(** ** The sampler and the scorer *)



Lemma any_key_ext (keys cols1 cols2 : list string) :
  (forall k, k ∈ PyStr.lower <$> cols1 <-> k ∈ PyStr.lower <$> cols2) ->
  any_key keys (colset cols1) = any_key keys (colset cols2).
Proof.
  intros Hsame. apply eq_true_iff_eq. rewrite !any_key_spec.
  split; intros (k & Hk & Hin); exists k; (split; [done | by apply Hsame]).
Qed.

(** X6. The signals depend on the set of lowercased column names only:
    neither the order of the columns, nor repeated names, nor the letter
    case of a name changes them. *)
Theorem signals_depend_on_lowercase_names (cols1 cols2 : list string) :
  (forall k, k ∈ PyStr.lower <$> cols1 <-> k ∈ PyStr.lower <$> cols2) ->
  compute_signals cols1 = compute_signals cols2.
Proof.
  intros Hsame. unfold compute_signals.
  by rewrite !(any_key_ext _ cols1 cols2 Hsame).
Qed.

Lemma signals_depend_on_lowercase_names_witness :
  (forall k, k ∈ PyStr.lower <$> ["ID"; "Year"; "notes"]
             <-> k ∈ PyStr.lower <$> ["NOTES"; "year"; "id"; "Id"]) /\
  compute_signals ["ID"; "Year"; "notes"]
    = compute_signals ["NOTES"; "year"; "id"; "Id"].
Proof.
  assert (Hsame : forall k, k ∈ PyStr.lower <$> ["ID"; "Year"; "notes"]
                            <-> k ∈ PyStr.lower <$> ["NOTES"; "year"; "id"; "Id"]).
  { intros k.
    change (PyStr.lower <$> ["ID"; "Year"; "notes"]) with ["id"; "year"; "notes"].
    change (PyStr.lower <$> ["NOTES"; "year"; "id"; "Id"])
      with ["notes"; "year"; "id"; "id"].
    rewrite !elem_of_cons, !elem_of_nil. tauto. }
  split; [exact Hsame|].
  exact (signals_depend_on_lowercase_names _ _ Hsame).
Defined.

(** ** The enumeration as a set *)

Lemma sorted_set_ext (l1 l2 : list string) :
  (forall p, p ∈ l1 <-> p ∈ l2) -> sorted_set l1 = sorted_set l2.
Proof.
  intros Hsame. unfold sorted_set.
  assert (Hset : (list_to_set l1 : gset string) = list_to_set l2).
  { apply set_eq. intros p. by rewrite !elem_of_list_to_set. }
  by rewrite Hset.
Qed.

(** X3. The enumeration depends on the set of paths that [glob] finds only:
    the order of the patterns, a pattern given twice, patterns that match
    the same file and the order in which [glob] lists the files do not
    change it. *)
Theorem discover_depends_on_matches (w1 w2 : World) (dir1 dir2 : string)
    (ps1 ps2 : list string) :
  (forall p, p ∈ glob_all w1 dir1 ps1 <-> p ∈ glob_all w2 dir2 ps2) ->
  discover w1 dir1 ps1 = discover w2 dir2 ps2.
Proof. intros Hsame. unfold discover. by apply sorted_set_ext. Qed.

Lemma discover_depends_on_matches_witness :
  (forall p, p ∈ glob_all Lab.pair "data" ["*.dta"; "*.csv"; "*.csv"]
             <-> p ∈ glob_all Lab.pair "data" ["*.csv"]) /\
  discover Lab.pair "data" ["*.dta"; "*.csv"; "*.csv"]
    = discover Lab.pair "data" ["*.csv"].
Proof.
  assert (Hsame : forall p,
            p ∈ glob_all Lab.pair "data" ["*.dta"; "*.csv"; "*.csv"]
            <-> p ∈ glob_all Lab.pair "data" ["*.csv"]).
  { intros p.
    change (glob_all Lab.pair "data" ["*.dta"; "*.csv"; "*.csv"])
      with (["data/sub/b.csv"; "data/a.csv"; "data/c.csv"]
            ++ ["data/sub/b.csv"; "data/a.csv"; "data/c.csv"]).
    change (glob_all Lab.pair "data" ["*.csv"])
      with ["data/sub/b.csv"; "data/a.csv"; "data/c.csv"].
    rewrite elem_of_app. tauto. }
  split; [exact Hsame|].
  exact (discover_depends_on_matches _ _ _ _ _ _ Hsame).
Defined.

(** ** More on the selector *)

Lemma sort_key_scored (fp ext : string) (size : Z) (df : DataFrame) :
  sort_key (scored_record fp ext size df)
  = (compute_score (compute_signals (df_columns df))
       (Some (Z.of_N (df_nrows df))) (Some (Z.of_nat (length (df_columns df)))),
     Z.of_N (df_nrows df), size).
Proof.
  unfold sort_key. rewrite scored_record_fields.
  cbn [Candidate.score Candidate.nrows Candidate.size default from_option id].
  by rewrite !or_zero_Some.
Qed.

Lemma inject_Z_lt (a b : Z) : a < b -> (inject_Z a < inject_Z b)%Q.
Proof. intros H. unfold Qlt. simpl. lia. Qed.

Lemma inject_Z_le (a b : Z) : a <= b -> (inject_Z a <= inject_Z b)%Q.
Proof. intros H. unfold Qle. simpl. lia. Qed.

(** In automatic mode with a record that passes the filter, the selector
    returns the path of a record that passes the filter and that no
    record passing the filter exceeds. *)
Lemma auto_selected (args : Args) (m : Machine) (p : nat) (cat : list Candidate)
    (c : Candidate) :
  given (primary_file args) = false ->
  store m !! p = Some cat ->
  c ∈ cat -> no_error c = true ->
  exists best,
    best ∈ cat /\ no_error best = true /\
    (choose_primary args p m).2 = inr (Candidate.path best) /\
    forall c', c' ∈ cat -> no_error c' = true -> not_below best c'.
Proof.
  intros Hauto Hp Hc Hok.
  set (valid := filter (fun c => no_error c = true) cat).
  assert (Hin : c ∈ valid) by (by apply list_elem_of_filter).
  assert (Hne : valid <> []) by (intros Hnil; rewrite Hnil in Hin; by apply elem_of_nil in Hin).
  destruct (sort_reverse_head valid Hne)
    as (best & rest & before & after & Hsort & Hsplit & Hbefore & Hafter).
  assert (Hbest : best ∈ valid).
  { rewrite Hsplit, elem_of_app, elem_of_cons. auto. }
  apply list_elem_of_filter in Hbest as [Hbok Hbcat].
  exists best. split; [done|]. split; [done|]. split.
  - rewrite (choose_primary_auto args m p cat Hauto Hp). cbv zeta. fold valid.
    rewrite bool_decide_eq_false_2 by done. by rewrite Hsort, first_path_cons.
  - intros c' Hc' Hok'.
    assert (Hv : c' ∈ valid) by (by apply list_elem_of_filter).
    rewrite Hsplit, elem_of_app, elem_of_cons in Hv.
    rewrite Forall_forall in Hbefore, Hafter.
    destruct Hv as [Hv|[->|Hv]].
    + apply key_ltb_asym. by apply Hbefore.
    + apply key_ltb_irrefl.
    + by apply Hafter.
Qed.

Lemma scored_no_error (fp ext : string) (size : Z) (df : DataFrame) :
  no_error (scored_record fp ext size df) = true.
Proof. reflexivity. Qed.

(** X7. Of two readable files with the same signals and the same number of
    columns, the one with more rows has the greater key, so automatic
    selection never returns the smaller one while the larger one is in
    the catalogue. *)
Theorem more_rows_rank_higher (args : Args) (m : Machine) (p : nat)
    (cat : list Candidate) (fp1 fp2 ext1 ext2 : string) (size1 size2 : Z)
    (df1 df2 : DataFrame) :
  given (primary_file args) = false ->
  store m !! p = Some cat ->
  compute_signals (df_columns df1) = compute_signals (df_columns df2) ->
  length (df_columns df1) = length (df_columns df2) ->
  (df_nrows df1 < df_nrows df2)%N ->
  let small := scored_record fp1 ext1 size1 df1 in
  let large := scored_record fp2 ext2 size2 df2 in
  small ∈ cat -> large ∈ cat ->
  key_lt small large /\
  exists best,
    best ∈ cat /\ best <> small /\
    (choose_primary args p m).2 = inr (Candidate.path best).
Proof.
  intros Hauto Hp Hsg Hlen Hrows small large Hsmall Hlarge.
  assert (Hlt : key_lt small large).
  { unfold key_lt, small, large. rewrite !sort_key_scored. apply key_ltb_spec.
    left. rewrite Hsg, Hlen, !compute_score_eq, !div_million.
    assert (inject_Z (Z.of_N (df_nrows df1)) < inject_Z (Z.of_N (df_nrows df2)))%Q
      by (apply inject_Z_lt; lia).
    lra. }
  split; [exact Hlt|].
  destruct (auto_selected args m p cat large Hauto Hp Hlarge (scored_no_error _ _ _ _))
    as (best & Hin & _ & Hout & Hmax).
  exists best. split; [done|]. split; [|done].
  intros ->. specialize (Hmax large Hlarge (scored_no_error _ _ _ _)).
  unfold not_below, key_lt in *. congruence.
Qed.

Lemma more_rows_rank_higher_witness :
  let args := Lab.in_dir "*.csv" None false in
  let small := scored_record "data/s.csv" ".csv" 10 Cases.short_sample in
  let large := scored_record "data/t.csv" ".csv" 10 Cases.long_sample in
  let m := Lab.holding [small; large] in
  given (primary_file args) = false /\
  store m !! 0%nat = Some [small; large] /\
  (df_nrows Cases.short_sample < df_nrows Cases.long_sample)%N /\
  key_lt small large /\
  (choose_primary args 0 m).2 = inr "data/t.csv".
Proof.
  intros args small large m.
  assert (Hrows : (df_nrows Cases.short_sample < df_nrows Cases.long_sample)%N)
    by reflexivity.
  assert (Hs : small ∈ [small; large]) by apply list_elem_of_here.
  assert (Hl : large ∈ [small; large]) by apply list_elem_of_further, list_elem_of_here.
  do 3 (split; [done|]).
  destruct (more_rows_rank_higher args m 0 [small; large]
              "data/s.csv" "data/t.csv" ".csv" ".csv" 10 10
              Cases.short_sample Cases.long_sample
              eq_refl eq_refl eq_refl eq_refl Hrows Hs Hl) as [Hlt _].
  split; [exact Hlt | reflexivity].
Defined.

(** X8. The size term is not bounded by the weights of the signals: a file
    with 62 more columns has the greater key whatever the signals of the
    two files are, as long as the narrower file has at most 200000
    rows. *)
Theorem wide_file_outranks_signals (fp1 fp2 ext1 ext2 : string)
    (size1 size2 : Z) (df1 df2 : DataFrame) :
  (df_nrows df1 <= 200000)%N ->
  (length (df_columns df1) + 62 <= length (df_columns df2))%nat ->
  key_lt (scored_record fp1 ext1 size1 df1) (scored_record fp2 ext2 size2 df2).
Proof.
  intros Hrows Hcols. unfold key_lt. rewrite !sort_key_scored.
  apply key_ltb_spec. left. rewrite !compute_score_eq, !div_million.
  assert (H1 : (inject_Z (Z.of_N (df_nrows df1)) <= inject_Z 200000)%Q)
    by (apply inject_Z_le; lia).
  assert (H2 : (0 <= inject_Z (Z.of_N (df_nrows df2)))%Q)
    by (apply (inject_Z_le 0); lia).
  assert (H3 : (inject_Z (Z.of_nat (length (df_columns df1)) + 62)
                <= inject_Z (Z.of_nat (length (df_columns df2))))%Q)
    by (apply inject_Z_le; lia).
  rewrite inject_Z_plus in H3.
  change (inject_Z 200000) with 200000%Q in H1.
  change (inject_Z 62) with 62%Q in H3.
  destruct (has_unit _ && has_time _), (has_treat _), (has_outcome _),
    (has_unit _ && has_time _), (has_treat _), (has_outcome _); lra.
Qed.

Lemma wide_file_outranks_signals_witness :
  (df_nrows Cases.narrow <= 200000)%N /\
  (length (df_columns Cases.narrow) + 62 <= length (df_columns Cases.wide_plain))%nat /\
  compute_signals (df_columns Cases.narrow)
    = {| has_unit := true; has_time := true; has_treat := true; has_outcome := true |} /\
  compute_signals (df_columns Cases.wide_plain)
    = {| has_unit := false; has_time := false; has_treat := false; has_outcome := false |} /\
  key_lt (scored_record "data/panel.csv" ".csv" 10 Cases.narrow)
         (scored_record "data/wide.csv" ".csv" 10 Cases.wide_plain).
Proof.
  assert (Hrows : (df_nrows Cases.narrow <= 200000)%N) by (vm_compute; discriminate).
  assert (Hcols : (length (df_columns Cases.narrow) + 62
                   <= length (df_columns Cases.wide_plain))%nat)
    by (vm_compute; lia).
  split; [exact Hrows|]. split; [exact Hcols|].
  split; [vm_compute; reflexivity|]. split; [vm_compute; reflexivity|].
  exact (wide_file_outranks_signals _ _ _ _ _ _ _ _ Hrows Hcols).
Defined.

Lemma no_error_empty_message (c : Candidate) :
  Candidate.error c = Some EmptyString -> no_error c = true.
Proof. intros H. unfold no_error. by rewrite H. Qed.

Lemma no_error_message (c : Candidate) (e : string) :
  Candidate.error c = Some e -> e <> EmptyString -> no_error c = false.
Proof. intros H He. unfold no_error. rewrite H. by destruct e. Qed.

(** X9. A file whose read raised an exception with an empty message is not
    filtered out: [not c.get("error")] holds for it.  With such a record
    in the catalogue automatic selection does not fail, and when every
    other record carries a message it returns the path of that file. *)
Theorem empty_error_message_passes_filter (args : Args) (m : Machine) (p : nat)
    (cat : list Candidate) (c : Candidate) :
  given (primary_file args) = false ->
  store m !! p = Some cat ->
  c ∈ cat ->
  Candidate.error c = Some EmptyString ->
  let out := choose_primary args p m in
  (exists best, best ∈ cat /\ out.2 = inr (Candidate.path best)) /\
  ((forall c', c' ∈ cat -> c' <> c ->
      exists e, Candidate.error c' = Some e /\ e <> EmptyString) ->
   out.2 = inr (Candidate.path c)).
Proof.
  intros Hauto Hp Hc Herr out.
  destruct (auto_selected args m p cat c Hauto Hp Hc (no_error_empty_message c Herr))
    as (best & Hin & Hok & Hout & _).
  split; [by exists best|].
  intros Hothers. unfold out. rewrite Hout.
  destruct (decide (Candidate.path best = Candidate.path c)) as [->|Hne]; [done|].
  assert (Hbc : best <> c) by (intros ->; by apply Hne).
  destruct (Hothers best Hin Hbc) as (e & He & Hmsg).
  rewrite (no_error_message best e He Hmsg) in Hok. discriminate.
Qed.

Lemma empty_error_message_passes_filter_witness :
  let args := Lab.in_dir "*.dta" None false in
  infer_file Cases.empty_chunk "data/empty.dta" = Returned Cases.rec_empty /\
  given (primary_file args) = false /\
  store (Lab.holding [Cases.rec_empty]) !! 0%nat = Some [Cases.rec_empty] /\
  Candidate.error Cases.rec_empty = Some EmptyString /\
  (choose_primary args 0 (Lab.holding [Cases.rec_empty])).2 = inr "data/empty.dta" /\
  agent_built (run Cases.empty_chunk args).1 = Some "data/empty.dta".
Proof.
  intros args.
  assert (Hin : Cases.rec_empty ∈ [Cases.rec_empty]) by apply list_elem_of_here.
  do 4 (split; [reflexivity|]).
  split; [|reflexivity].
  destruct (empty_error_message_passes_filter args (Lab.holding [Cases.rec_empty]) 0
              [Cases.rec_empty] Cases.rec_empty eq_refl eq_refl Hin eq_refl)
    as [_ Honly].
  apply Honly. intros c' Hc' Hne.
  apply list_elem_of_singleton in Hc'. contradiction.
Defined.

(** ** Explicit override and basenames *)

Lemma after_last_chars (sep : ascii) (acc s : string) :
  sep ∉ chars s ->
  chars (OsPath.after_last sep acc s) = reverse (chars acc) ++ chars s.
Proof.
  revert acc. induction s as [|c s IH]; intros acc Hs; cbn [OsPath.after_last].
  - rewrite chars_rev. symmetry. apply app_nil_r.
  - cbn [chars list_ascii_of_string] in Hs. apply not_elem_of_cons in Hs as [Hc Hs].
    destruct (Ascii.eqb_spec c sep) as [->|_]; [done|].
    rewrite (IH _ Hs). cbn [chars list_ascii_of_string].
    rewrite reverse_cons, <- app_assoc. reflexivity.
Qed.

Lemma after_last_no_sep (sep : ascii) (acc s : string) :
  sep ∉ chars acc -> sep ∉ chars (OsPath.after_last sep acc s).
Proof.
  revert acc. induction s as [|c s IH]; intros acc Hacc; cbn [OsPath.after_last].
  - by rewrite chars_rev, elem_of_reverse.
  - destruct (Ascii.eqb_spec c sep) as [->|Hne].
    + apply IH. apply not_elem_of_nil.
    + apply IH. cbn [chars list_ascii_of_string]. apply not_elem_of_cons.
      split; [congruence | done].
Qed.

(** A basename holds no separator, and is its own basename. *)
Lemma basename_no_sep (p : string) : "/"%char ∉ chars (OsPath.basename p).
Proof. apply after_last_no_sep, not_elem_of_nil. Qed.

Lemma basename_idem (p : string) :
  OsPath.basename (OsPath.basename p) = OsPath.basename p.
Proof.
  apply chars_inj. unfold OsPath.basename at 1.
  rewrite after_last_chars by apply basename_no_sep. reflexivity.
Qed.

Lemma explicit_selected (args : Args) (m : Machine) (p : nat)
    (cat : list Candidate) (candidate : string) (c : Candidate) :
  primary_file args = Some candidate ->
  PyStr.truthy candidate = true ->
  store m !! p = Some cat ->
  c ∈ cat -> matches candidate c = true ->
  exists first before after,
    cat = before ++ first :: after /\
    matches candidate first = true /\
    Forall (fun c' => matches candidate c' = false) before /\
    (choose_primary args p m).2 = inr (Candidate.path first).
Proof.
  intros Hpf Hcand Hp Hc Hm.
  rewrite (choose_primary_explicit args m p cat candidate Hpf Hcand Hp). cbv zeta.
  destruct (filter (fun c => matches candidate c = true) cat)
    as [|first rest] eqn:Hmatched.
  { assert (Hin : c ∈ filter (fun c => matches candidate c = true) cat)
      by (by apply list_elem_of_filter).
    rewrite Hmatched in Hin. by apply elem_of_nil in Hin. }
  destruct (filter_first _ cat first rest Hmatched)
    as (before & after & Hsplit & Hfirst & Hbefore).
  exists first, before, after.
  split; [exact Hsplit|]. split; [exact Hfirst|]. split.
  - eapply Forall_impl; [exact Hbefore|]. intros c' Hc'. by apply not_true_is_false.
  - by rewrite bool_decide_eq_false_2.
Qed.

(** X10. Naming a catalogued file by its path or by its basename never ends
    in primary-file-not-found: the selector returns a catalogued path
    with the basename of that file. *)
Theorem override_by_catalogued_name_succeeds (args : Args) (m : Machine) (p : nat)
    (cat : list Candidate) (candidate : string) (c : Candidate) :
  primary_file args = Some candidate ->
  PyStr.truthy candidate = true ->
  store m !! p = Some cat ->
  c ∈ cat ->
  candidate = Candidate.path c \/ candidate = OsPath.basename (Candidate.path c) ->
  exists first,
    first ∈ cat /\
    (choose_primary args p m).2 = inr (Candidate.path first) /\
    OsPath.basename (Candidate.path first) = OsPath.basename (Candidate.path c).
Proof.
  intros Hpf Hcand Hp Hc Hname.
  assert (Hbase : OsPath.basename candidate = OsPath.basename (Candidate.path c)).
  { destruct Hname as [->| ->]; [done | apply basename_idem]. }
  assert (Hm : matches candidate c = true).
  { apply matches_spec. right. by rewrite Hbase. }
  destruct (explicit_selected args m p cat candidate c Hpf Hcand Hp Hc Hm)
    as (first & before & after & Hsplit & Hfirst & _ & Hout).
  exists first. split; [|split; [done|]].
  - rewrite Hsplit, elem_of_app, elem_of_cons. auto.
  - apply matches_spec in Hfirst as [Hpath|Hb]; [|congruence].
    rewrite Hpath. exact Hbase.
Qed.

Lemma override_by_catalogued_name_succeeds_witness :
  let args := Lab.in_dir "*.csv" (Some "b.csv") false in
  let m := Lab.holding Lab.pair_catalog in
  primary_file args = Some "b.csv" /\
  PyStr.truthy "b.csv" = true /\
  store m !! 0%nat = Some Lab.pair_catalog /\
  Lab.rec_b ∈ Lab.pair_catalog /\
  "b.csv" = OsPath.basename (Candidate.path Lab.rec_b) /\
  (choose_primary args 0 m).2 = inr "data/sub/b.csv".
Proof.
  intros args m.
  assert (Hin : Lab.rec_b ∈ Lab.pair_catalog).
  { unfold Lab.pair_catalog. rewrite !elem_of_cons. auto. }
  do 3 (split; [reflexivity|]). split; [exact Hin|]. split; [reflexivity|].
  destruct (override_by_catalogued_name_succeeds args m 0 Lab.pair_catalog
              "b.csv" Lab.rec_b eq_refl eq_refl eq_refl Hin (or_intror eq_refl))
    as (first & _ & _ & _).
  reflexivity.
Defined.

(** X11. The first record whose path or basename matches is taken, also when
    a later record has exactly the path that was given: of two files
    with one basename the earlier in discovery order is selected
    whichever of the two paths is given. *)
Theorem earlier_basename_match_wins (args : Args) (m : Machine) (p : nat)
    (before rest : list Candidate) (c1 c2 : Candidate) :
  primary_file args = Some (Candidate.path c2) ->
  PyStr.truthy (Candidate.path c2) = true ->
  store m !! p = Some (before ++ c1 :: rest) ->
  c2 ∈ rest ->
  OsPath.basename (Candidate.path c1) = OsPath.basename (Candidate.path c2) ->
  Forall (fun c => matches (Candidate.path c2) c = false) before ->
  (choose_primary args p m).2 = inr (Candidate.path c1).
Proof.
  intros Hpf Hcand Hp Hc2 Hbase Hbefore.
  assert (Hm : matches (Candidate.path c2) c1 = true).
  { apply matches_spec. by right. }
  assert (Hin : c1 ∈ before ++ c1 :: rest).
  { rewrite elem_of_app, elem_of_cons. auto. }
  destruct (explicit_selected args m p _ _ c1 Hpf Hcand Hp Hin Hm)
    as (first & before' & after' & Hsplit & Hfirst & Hbefore' & Hout).
  rewrite Hout. f_equal. f_equal.
  clear Hout Hp Hin.
  revert before' Hsplit Hbefore'.
  induction Hbefore as [|b before Hb Hrest IH]; intros before' Hsplit Hbefore'.
  - destruct before' as [|b' before']; [by injection Hsplit as ->|].
    injection Hsplit as <- _. apply Forall_cons_1 in Hbefore' as [Hb' _]. congruence.
  - destruct before' as [|b' before'].
    + injection Hsplit as -> _. congruence.
    + injection Hsplit as <- Hsplit. apply Forall_cons_1 in Hbefore' as [_ Hbefore'].
      by apply (IH before').
Qed.

Lemma earlier_basename_match_wins_witness :
  let args := Lab.in_dir "*.csv" (Some "data/b/x.csv") false in
  let m := Lab.holding [Cases.twin_a; Cases.twin_b] in
  discover Cases.twins "data" ["*.csv"] = ["data/a/x.csv"; "data/b/x.csv"] /\
  primary_file args = Some (Candidate.path Cases.twin_b) /\
  store m !! 0%nat = Some ([] ++ Cases.twin_a :: [Cases.twin_b]) /\
  (choose_primary args 0 m).2 = inr "data/a/x.csv" /\
  agent_built (run Cases.twins args).1 = Some "data/a/x.csv".
Proof.
  intros args m.
  split; [vm_compute; reflexivity|]. do 2 (split; [reflexivity|]).
  split; [|vm_compute; reflexivity].
  exact (earlier_basename_match_wins args m 0 [] [Cases.twin_b]
           Cases.twin_a Cases.twin_b eq_refl eq_refl eq_refl
           (list_elem_of_here _ _) eq_refl (Forall_nil_2 _)).
Defined.

(** ** Whole runs *)

Lemma choose_primary_selected (args : Args) (m m3 : Machine) (p : nat)
    (cat : list Candidate) (selected : string) :
  store m !! p = Some cat ->
  choose_primary args p m = (m3, inr selected) ->
  selected ∈ Candidate.path <$> cat.
Proof.
  intros Hp. destruct (given (primary_file args)) eqn:Hmode.
  - destruct (given_Some _ Hmode) as (candidate & Hpf & Hcand).
    rewrite (choose_primary_explicit args m p cat candidate Hpf Hcand Hp). cbv zeta.
    destruct (bool_decide _); [discriminate|].
    destruct (filter _ cat) as [|c l] eqn:Hf; [discriminate|].
    rewrite first_path_cons. intros [= _ <-].
    apply list_elem_of_fmap_2.
    assert (Hin : c ∈ filter (fun c => matches candidate c = true) cat)
      by (rewrite Hf; apply list_elem_of_here).
    by apply list_elem_of_filter in Hin as [_ Hin].
  - rewrite (choose_primary_auto args m p cat Hmode Hp). cbv zeta.
    destruct (bool_decide _); [discriminate|].
    destruct (sort_reverse _) as [|c l] eqn:Hs; [discriminate|].
    rewrite first_path_cons. intros [= _ <-].
    apply list_elem_of_fmap_2.
    assert (Hin : c ∈ filter (fun c => no_error c = true) cat).
    { rewrite <- sort_reverse_Permutation, Hs. apply list_elem_of_here. }
    by apply list_elem_of_filter in Hin as [_ Hin].
Qed.

(** X12. A catalogue that was saved is consistent with the run: it names the
    directory and the patterns of the command line, its selected path is
    the path of one of its records, and the agent, when it is built, is
    built on that path; with the catalogue-only flag the run ends with
    code 0 and without an agent. *)
Theorem saved_catalog_matches_run (w : World) (args : Args) (doc : CatalogDoc) :
  saved (run w args).1 = Some doc ->
  doc_selected doc ∈ Candidate.path <$> doc_files doc /\
  (exists dir, data_dir args = Some dir /\ doc_data_dir doc = abspath w dir) /\
  doc_patterns doc = parse_patterns (data_glob args) /\
  (catalog_only args = true ->
     agent_built (run w args).1 = None /\ (run w args).2 = Return 0) /\
  (catalog_only args = false ->
     agent_built (run w args).1 = Some (doc_selected doc)).
Proof.
  intros Hdoc.
  destruct (in_dir_or_elsewhere w args)
    as [Helse|(Hkey & Hpaper & dir & Hdir & Htruthy)].
  { destruct (run_elsewhere w args Helse) as [Hsaved _]. congruence. }
  rewrite (run_in_dir w args dir Hkey Hpaper Hdir Htruthy) in Hdoc |- *.
  destruct (resolve_in_dir_cases w args dir boot)
    as [(m1 & s & _ & Hres & _ & Hsaved & _)
       |(recs & m3 & selected & _ & _ & _ & Hsel & _ & Hcat & Hsaved & Hbuilt & _ & _ & Hres)].
  { rewrite Hres in Hdoc. cbn [fst] in Hdoc. rewrite Hsaved in Hdoc. discriminate. }
  cbv zeta in Hres. rewrite Hres in Hdoc |- *.
  change (saved boot) with (@None CatalogDoc) in Hsaved.
  change (agent_built boot) with (@None string) in Hbuilt.
  assert (Hin : selected ∈ Candidate.path <$> recs).
  { apply (choose_primary_selected args
             (with_store (fun st => st ++ [recs]) boot) m3 (length (store boot))
             recs selected eq_refl Hsel). }
  destruct (write_ok w), (catalog_only args); cbn in Hdoc |- *;
    rewrite ?Hsaved in Hdoc; try discriminate Hdoc;
    injection Hdoc as <-; cbn;
    (split; [exact Hin|]); (split; [by exists dir|]); (split; [reflexivity|]);
    split; intros; try discriminate; auto.
Qed.

Lemma saved_catalog_matches_run_witness :
  let args := Lab.in_dir "*.csv" None false in
  let doc := {| doc_data_dir := "/work/data"; doc_patterns := ["*.csv"];
                doc_selected := "data/sub/b.csv";
                doc_files := Lab.pair_catalog |} in
  saved (run Lab.pair args).1 = Some doc /\
  doc_selected doc ∈ Candidate.path <$> doc_files doc /\
  agent_built (run Lab.pair args).1 = Some "data/sub/b.csv".
Proof.
  intros args doc.
  assert (Hdoc : saved (run Lab.pair args).1 = Some doc) by reflexivity.
  destruct (saved_catalog_matches_run Lab.pair args doc Hdoc)
    as (Hin & _ & _ & _ & Hagent).
  split; [exact Hdoc|]. split; [exact Hin|]. exact (Hagent eq_refl).
Defined.

(** X13. The agent is built on a path that was found, and only after the key
    and the paper stage: on [--data-path] when that path exists and no
    data directory is given, or on one of the enumerated files of the
    data directory when the catalogue-only flag is not set.  An agent
    that is built is run. *)
Theorem agent_runs_on_a_found_path (w : World) (args : Args) (p : string) :
  agent_built (run w args).1 = Some p ->
  api_key_set w = true /\
  paper_summary w <> None /\
  agent_ran (run w args).1 = true /\
  ((given (data_dir args) = false /\
    data_path args = Some p /\ path_exists w p = true)
   \/
   (exists dir,
      data_dir args = Some dir /\ isdir w dir = true /\
      catalog_only args = false /\
      p ∈ discover w dir (parse_patterns (data_glob args)))).
Proof.
  intros Hbuilt.
  destruct (in_dir_or_elsewhere w args)
    as [Helse|(Hkey & Hpaper & dir & Hdir & Htruthy)].
  - revert Hbuilt. unfold run, main.
    destruct (api_key_set w); [|discriminate].
    destruct (paper_summary w) as [summary|]; [|discriminate].
    destruct Helse as [?|[?|Hnodir]]; [discriminate..|]. rewrite Hnodir.
    rewrite bool_decide_eq_false_2 by done.
    destruct (data_path args) as [dp|]; [|discriminate].
    destruct (PyStr.truthy dp && path_exists w dp) eqn:Hdp; [|discriminate].
    unfold mbind, M_bind. cbn [mret M_ret]. rewrite analyse_run.
    cbn. intros [= <-]. apply andb_true_iff in Hdp as [_ Hexists].
    repeat split; auto.
  - rewrite (run_in_dir w args dir Hkey Hpaper Hdir Htruthy) in Hbuilt |- *.
    destruct (resolve_in_dir_cases w args dir boot)
      as [(m1 & s & _ & Hres & _ & _ & Hb & _)
         |(recs & m3 & selected & Hisdir & _ & Hrecs & Hsel & _ & _ & _ & Hb & _ & _ & Hres)].
    { rewrite Hres in Hbuilt. cbn [fst] in Hbuilt. rewrite Hb in Hbuilt. discriminate. }
    cbv zeta in Hres. rewrite Hres in Hbuilt |- *.
    change (agent_built boot) with (@None string) in Hb.
    assert (Hin : selected ∈ Candidate.path <$> recs).
    { apply (choose_primary_selected args
             (with_store (fun st => st ++ [recs]) boot) m3 (length (store boot))
             recs selected eq_refl Hsel). }
    rewrite (map_infer_file_paths w _ recs Hrecs) in Hin.
    destruct (catalog_only args) eqn:Honly.
    + destruct (write_ok w); cbn in Hbuilt; rewrite Hb in Hbuilt; discriminate.
    + assert (p = selected) as ->.
      { destruct (write_ok w); cbn in Hbuilt; congruence. }
      split; [done|]. split; [done|].
      split; [by destruct (write_ok w)|].
      right. exists dir. auto.
Qed.

Lemma agent_runs_on_a_found_path_witness :
  let args := Lab.in_dir "*.csv" None false in
  agent_built (run Lab.pair args).1 = Some "data/sub/b.csv" /\
  agent_ran (run Lab.pair args).1 = true /\
  "data/sub/b.csv" ∈ discover Lab.pair "data" (parse_patterns (data_glob args)).
Proof.
  intros args.
  assert (Hbuilt : agent_built (run Lab.pair args).1 = Some "data/sub/b.csv")
    by reflexivity.
  destruct (agent_runs_on_a_found_path Lab.pair args _ Hbuilt)
    as (_ & _ & Hran & [(Hnodir & _)|(dir & Hdir & _ & _ & Hin)]).
  - discriminate Hnodir.
  - injection Hdir as <-. auto.
Defined.

(** X14. A data directory overrides [--data-path]: with a data directory
    given, the run is the same whatever [--data-path] is. *)
Theorem data_dir_overrides_data_path (w : World) (args : Args) (p : option string) :
  given (data_dir args) = true ->
  run w (with_data_path p args) = run w args.
Proof.
  intros Hdir. unfold run, main. cbn [data_dir with_data_path].
  rewrite Hdir. reflexivity.
Qed.

Lemma data_dir_overrides_data_path_witness :
  let args := Lab.in_dir "*.csv" None false in
  given (data_dir args) = true /\
  run Lab.pair (with_data_path (Some "elsewhere.csv") args) = run Lab.pair args.
Proof.
  intros args. split; [reflexivity|].
  exact (data_dir_overrides_data_path Lab.pair args (Some "elsewhere.csv") eq_refl).
Defined.

(** X15. Without a data directory the pattern list, the primary file and the
    catalogue-only flag are not read: the run is the same whatever they
    are, so the catalogue-only flag alone does not keep the agent from
    running. *)
Theorem dir_options_need_data_dir (w : World) (args : Args)
    (g pf : option string) (only : bool) :
  given (data_dir args) = false ->
  run w (with_dir_options g pf only args) = run w args.
Proof.
  intros Hdir. unfold run, main. cbn [data_dir data_path with_dir_options].
  rewrite Hdir. reflexivity.
Qed.

Lemma dir_options_need_data_dir_witness :
  let args := {| data_path := Some "data/a.csv"; data_dir := None;
                 data_glob := None; primary_file := None;
                 catalog_only := false |} in
  given (data_dir args) = false /\
  run Lab.pair (with_dir_options None None true args) = run Lab.pair args /\
  agent_built (run Lab.pair (with_dir_options None None true args)).1
    = Some "data/a.csv".
Proof.
  intros args. split; [reflexivity|].
  split; [|reflexivity].
  exact (dir_options_need_data_dir Lab.pair args None None true eq_refl).
Defined.

(** X16. [main] returns 0 in two cases only: the catalogue-only flag is set
    in a run over a data directory, and then no agent was built; or the
    agent was built and [agent.run()] completed. *)
Theorem exit_zero_means (w : World) (args : Args) :
  (run w args).2 = Return 0 ->
  api_key_set w = true /\
  paper_summary w <> None /\
  ((catalog_only args = true /\ given (data_dir args) = true /\
    agent_built (run w args).1 = None)
   \/
   (run_agent w = RunCompleted /\
    is_Some (agent_built (run w args).1) /\ agent_ran (run w args).1 = true)).
Proof.
  intros Hzero.
  assert (Hcode : agent_code w = 0 -> run_agent w = RunCompleted).
  { unfold agent_code. destruct (run_agent w); [done | discriminate..]. }
  destruct (in_dir_or_elsewhere w args)
    as [Helse|(Hkey & Hpaper & dir & Hdir & Htruthy)].
  - revert Hzero. unfold run, main.
    destruct (api_key_set w); [|discriminate].
    destruct (paper_summary w) as [summary|]; [|discriminate].
    destruct Helse as [?|[?|Hnodir]]; [discriminate..|]. rewrite Hnodir.
    rewrite bool_decide_eq_false_2 by done.
    destruct (data_path args) as [dp|]; [|discriminate].
    destruct (PyStr.truthy dp && path_exists w dp); [|discriminate].
    unfold mbind, M_bind. cbn [mret M_ret]. rewrite analyse_run.
    cbn. intros [= Hc]. split; [done|]. split; [done|]. right. auto.
  - rewrite (run_in_dir w args dir Hkey Hpaper Hdir Htruthy) in Hzero |- *.
    assert (Hgiven : given (data_dir args) = true).
    { unfold given. by rewrite Hdir. }
    destruct (resolve_in_dir_cases w args dir boot)
      as [(m1 & s & _ & Hres & Hs & _)
         |(recs & m3 & selected & _ & _ & _ & _ & _ & _ & _ & Hb & _ & _ & Hres)].
    { rewrite Hres in Hzero. cbn [snd] in Hzero. congruence. }
    cbv zeta in Hres. rewrite Hres in Hzero |- *.
    change (agent_built boot) with (@None string) in Hb.
    split; [done|]. split; [done|].
    destruct (catalog_only args).
    + left. repeat split; [done|]. by destruct (write_ok w).
    + right. cbn in Hzero. injection Hzero as Hc.
      split; [auto|]. by destruct (write_ok w).
Qed.

Lemma exit_zero_means_witness :
  let args := Lab.in_dir "*.csv" None true in
  (run Lab.pair args).2 = Return 0 /\
  catalog_only args = true /\
  agent_built (run Lab.pair args).1 = None.
Proof.
  intros args.
  assert (Hzero : (run Lab.pair args).2 = Return 0) by reflexivity.
  destruct (exit_zero_means Lab.pair args Hzero) as (_ & _ & Hcases).
  split; [exact Hzero|]. split; [reflexivity|].
  destruct Hcases as [(_ & _ & Hnone)|(_ & [p Hp] & _)]; [exact Hnone|].
  vm_compute in Hp. discriminate.
Defined.

(** ** The paper stage *)












(** ** A directory without a readable file *)

Lemma unreadable_record (w : World) (fp : string) :
  unreadable w fp ->
  exists c, infer_file w fp = Returned c /\ no_error c = false.
Proof.
  intros (size & Hsize & [Hrd|(rd & e & Hrd & Hread & He)]); unfold infer_file;
    rewrite Hsize, Hrd.
  - eexists. split; reflexivity.
  - rewrite Hread. eexists. split; [reflexivity|].
    apply (no_error_message _ e); [reflexivity | done].
Qed.

Lemma unreadable_records (w : World) (files : list string) :
  Forall (unreadable w) files ->
  exists recs,
    map_raising (infer_file w) files = Returned recs /\
    Forall (fun c => no_error c = false) recs.
Proof.
  induction 1 as [|fp files Hfp _ (recs & Hrecs & Hall)].
  - exists []. split; [reflexivity | constructor].
  - destruct (unreadable_record w fp Hfp) as (c & Hc & Hno).
    exists (c :: recs). cbn [map_raising]. rewrite Hc, Hrecs.
    split; [reflexivity | by constructor].
Qed.

Lemma filter_none {A} (P : A -> Prop) `{!forall x, Decision (P x)} (l : list A) :
  Forall (fun x => ~ P x) l -> filter P l = [].
Proof.
  induction 1 as [|x l Hx _ IH]; [reflexivity|].
  rewrite filter_cons. by destruct (decide (P x)).
Qed.

(** X19. When every enumerated file has an extension outside the four or
    cannot be parsed, a run in automatic mode prints the
    no-readable-files line and returns 1; no catalogue is saved, also
    with the catalogue-only flag, and no agent is built. *)
Theorem unreadable_directory_ends_run (w : World) (args : Args) (dir : string) :
  api_key_set w = true ->
  paper_summary w <> None ->
  data_dir args = Some dir ->
  PyStr.truthy dir = true ->
  isdir w dir = true ->
  given (primary_file args) = false ->
  let files := discover w dir (parse_patterns (data_glob args)) in
  files <> [] ->
  Forall (unreadable w) files ->
  (run w args).2 = Return 1 /\
  printed (run w args).1 = [NoReadableFiles] /\
  saved (run w args).1 = None /\
  agent_built (run w args).1 = None.
Proof.
  intros Hkey Hpaper Hdir Htruthy Hisdir Hauto files Hfiles Hall.
  destruct (unreadable_records w files Hall) as (recs & Hrecs & Hno).
  set (m2 := with_store (fun st => st ++ [recs]) boot).
  assert (Hvalid : filter (fun c => no_error c = true) recs = []).
  { apply filter_none. eapply Forall_impl; [exact Hno|].
    intros c Hc. by rewrite Hc. }
  assert (Hsel := choose_primary_auto args m2 0 recs Hauto eq_refl).
  cbv zeta in Hsel. rewrite Hvalid in Hsel.
  rewrite bool_decide_eq_true_2 in Hsel by done.
  rewrite (run_in_dir w args dir Hkey Hpaper Hdir Htruthy).
  rewrite (resolve_sampled w args dir boot _ recs _ Hisdir Hfiles Hrecs Hsel).
  repeat split.
Qed.

Lemma unreadable_directory_ends_run_witness :
  let args := Lab.in_dir "*.xlsx" None true in
  discover Lab.spreadsheet "data" (parse_patterns (data_glob args))
    = ["data/book.xlsx"] /\
  unreadable Lab.spreadsheet "data/book.xlsx" /\
  (run Lab.spreadsheet args).2 = Return 1 /\
  printed (run Lab.spreadsheet args).1 = [NoReadableFiles].
Proof.
  intros args.
  assert (Hfiles : discover Lab.spreadsheet "data" (parse_patterns (data_glob args))
                   = ["data/book.xlsx"]) by (vm_compute; reflexivity).
  assert (Hbook : unreadable Lab.spreadsheet "data/book.xlsx").
  { exists 2048. split; [reflexivity|]. left. reflexivity. }
  assert (Hpaper : paper_summary Lab.spreadsheet <> None) by discriminate.
  assert (Hall : Forall (unreadable Lab.spreadsheet)
                   (discover Lab.spreadsheet "data" (parse_patterns (data_glob args)))).
  { rewrite Hfiles. by repeat constructor. }
  assert (Hne : discover Lab.spreadsheet "data" (parse_patterns (data_glob args)) <> [])
    by (rewrite Hfiles; discriminate).
  destruct (unreadable_directory_ends_run Lab.spreadsheet args "data"
              eq_refl Hpaper eq_refl eq_refl eq_refl eq_refl Hne Hall)
    as (Hcode & Hprinted & _ & _).
  auto.
Defined.
